(** * fullstack-todo: the REST server of [backend] over its store and cache

    A shallow embedding of the Express handlers of the todo server
    ([GET /todos], [POST /todos], [PUT /todos/:id], [DELETE /todos/:id]),
    of the [todos] table of [init-db/schema.sql] they operate on, and of
    the single Redis key ['todos'] they use as a list cache.

    The handlers are [async] functions whose body is one [try]/[catch];
    they are written here in a small state-and-exception monad over a
    [world] that holds the table, the cache entry, the two clocks and the
    trace of the calls made to the store and to the cache.  What the
    environment does to a call (the promise is fulfilled or rejected) is
    an input of each request, the record [env].

    A handler gives way at each of its [await]s, so two requests can be
    in flight at once.  Each handler is therefore written a second time
    call by call, as a [task], and the process as a [server] that takes
    requests as they arrive and lets any request in flight go on to its
    next [await]; a task that goes to its end with nothing in between is
    the handler of the monad. *)

From Stdlib Require Import ZArith NArith String Ascii Bool Lia DecimalString.
From Stdlib Require Import List Sorted Permutation.
Import ListNotations.
Open Scope Z_scope.

Set Warnings "-register-all".

Set Implicit Arguments.

(** ** JavaScript strings and [String.prototype.trim] *)

(** A JavaScript string is a sequence of UTF-16 code units. *)
Definition jsstring := list N.

(** The code units of a literal of the source (ASCII). *)
Definition lit (s : string) : jsstring :=
  map N_of_ascii (list_ascii_of_string s).

(** [trim] strips WhiteSpace and LineTerminator code points (ECMA-262):
    TAB, LF, VT, FF, CR, SP, NBSP, U+1680, U+2000..U+200A, U+2028, U+2029,
    U+202F, U+205F, U+3000 and U+FEFF. *)
Definition is_white_space (c : N) : bool :=
  ((9 <=? c) && (c <=? 13) || (c =? 32) || (c =? 160) || (c =? 5760)
   || (8192 <=? c) && (c <=? 8202) || (c =? 8232) || (c =? 8233)
   || (c =? 8239) || (c =? 8287) || (c =? 12288) || (c =? 65279))%N.

Fixpoint trimStart (s : jsstring) : jsstring :=
  match s with
  | c :: s' => if is_white_space c then trimStart s' else s
  | [] => []
  end.

Definition trimEnd (s : jsstring) : jsstring := rev (trimStart (rev s)).

Definition trim (s : jsstring) : jsstring := trimEnd (trimStart s).

(** ** JavaScript values *)

(** The values that travel through the handlers: what [JSON.parse] gives
    for a request body, what is bound to a statement, what [res.json] is
    given.  [VNum] carries the integral numbers (identifiers, counts);
    [VDate ms] is a [Date] at [ms] milliseconds since the epoch, which
    JSON writes as the ISO string of the same instant.  An object is the
    list of its own properties. *)
Inductive value : Type :=
| VUndefined
| VNull
| VBool (b : bool)
| VNum (n : Z)
| VStr (s : jsstring)
| VDate (ms : Z)
| VArr (xs : list value)
| VObj (props : list (string * value)).

(** [o.k], [undefined] when [o] has no property [k]. *)
Fixpoint get_prop (k : string) (o : list (string * value)) : value :=
  match o with
  | [] => VUndefined
  | (k', v) :: o' => if String.eqb k k' then v else get_prop k o'
  end.

(** ToBoolean. *)
Definition truthy (v : value) : bool :=
  match v with
  | VUndefined | VNull => false
  | VBool b => b
  | VNum n => negb (n =? 0)
  | VStr s => negb (Nat.eqb (length s) 0)
  | VDate _ | VArr _ | VObj _ => true
  end.

(** A destructuring default, [{ k = d } = o]: [d] replaces [undefined]
    only. *)
Definition or_default (v d : value) : value :=
  match v with
  | VUndefined => d
  | _ => v
  end.

(** ** The store: table [todos] of schema.sql *)

(** A row.  [id] is the AUTO_INCREMENT key, the two timestamps are
    seconds of the store's clock.  The three columns a request can write
    are kept as the value that was bound to the statement; [row_json]
    gives them as they are read back.  A value the engine refuses for its
    column is a rejected statement (see [db_fails]). *)
Record todo : Type := mkTodo {
  id : Z;
  title : value;
  description : value;
  completed : value;
  created_at : Z;
  updated_at : Z
}.

(** [completed BOOLEAN] is a TINYINT(1): a bound boolean is stored as 1
    or 0 and the column is read back as that number; a number and NULL
    are read back as they were bound. *)
Definition tinyint (v : value) : value :=
  match v with
  | VBool true => VNum 1
  | VBool false => VNum 0
  | _ => v
  end.

(** A row as the SELECT gives it and [res.json] and [JSON.stringify]
    write it. *)
Definition row_json (r : todo) : value :=
  VObj [("id", VNum (id r));
        ("title", title r);
        ("description", description r);
        ("completed", tinyint (completed r));
        ("created_at", VDate (1000 * created_at r));
        ("updated_at", VDate (1000 * updated_at r))]%string.

Definition rows_json (rows : list todo) : value := VArr (map row_json rows).

(** [ORDER BY created_at DESC]: a row goes before the first row that is
    not more recent than it; rows of one timestamp keep the table's
    order (the engine leaves their order open). *)
Fixpoint insert_desc (r : todo) (l : list todo) : list todo :=
  match l with
  | [] => [r]
  | x :: l' =>
      if created_at x <=? created_at r then r :: l
      else x :: insert_desc r l'
  end.

Fixpoint order_by_created_at_desc (l : list todo) : list todo :=
  match l with
  | [] => []
  | r :: l' => insert_desc r (order_by_created_at_desc l')
  end.

(** ** Calls to the store and to the cache *)

Inductive call : Type :=
| SqlSelect
| SqlInsert (t d : jsstring)
| SqlUpdate (t d c : value) (key : jsstring)
| SqlDelete (key : jsstring)
| RedisGet
| RedisSetEx (ttl : Z) (v : value)
| RedisDel.

(** ** The world of the server process *)

Record world : Type := mkWorld {
  todos : list todo;              (* table todos, in insertion order *)
  auto_increment : Z;             (* next AUTO_INCREMENT value *)
  db_now : Z;                     (* CURRENT_TIMESTAMP, seconds *)
  redisClient : bool;             (* the global [redisClient] is defined *)
  cache : option (value * Z);     (* key 'todos': JSON document, seconds left *)
  clock : Z;                      (* the process clock, milliseconds *)
  calls : list call               (* calls issued so far, latest first *)
}.

Definition log (c : call) (w : world) : world :=
  mkWorld (todos w) (auto_increment w) (db_now w) (redisClient w)
          (cache w) (clock w) (c :: calls w).

Definition set_table (t : list todo) (n : Z) (w : world) : world :=
  mkWorld t n (db_now w) (redisClient w) (cache w) (clock w) (calls w).

Definition set_cache (c : option (value * Z)) (w : world) : world :=
  mkWorld (todos w) (auto_increment w) (db_now w) (redisClient w)
          c (clock w) (calls w).

(** Time passing between two requests: [s] seconds on both clocks and on
    the time-to-live of the cache entry, which Redis drops at zero. *)
Definition elapse (s : Z) (w : world) : world :=
  mkWorld (todos w) (auto_increment w) (db_now w + s) (redisClient w)
          (match cache w with
           | Some (v, ttl) => if ttl - s <=? 0 then None else Some (v, ttl - s)
           | None => None
           end)
          (clock w + 1000 * s) (calls w).

(** What the environment does to the calls of one request: whether
    [db.execute] rejects (store unreachable, statement refused) and
    whether each cache command rejects. *)
Record env : Type := mkEnv {
  db_fails : bool;
  get_fails : bool;
  setEx_fails : bool;
  del_fails : bool
}.

Definition all_well : env := mkEnv false false false false.

(** ** The monad of an [async] handler body *)

Inductive result (A : Type) : Type :=
| Fulfilled (a : A)
| Rejected.
Arguments Rejected {A}.

Definition M (A : Type) : Type := world -> result A * world.

Definition ret {A} (a : A) : M A := fun w => (Fulfilled a, w).

Definition throw {A} : M A := fun w => (Rejected, w).

Definition bind {A B} (m : M A) (k : A -> M B) : M B :=
  fun w =>
    match m w with
    | (Fulfilled a, w') => k a w'
    | (Rejected, w') => (Rejected, w')
    end.

Notation "x <- m ;; k" := (bind m (fun x => k))
  (at level 61, m at next level, right associativity).

(** ** Responses *)

Record response : Type := mkResponse {
  status : Z;
  body : value
}.

Definition error_json (msg : string) : value :=
  VObj [("error"%string, VStr (lit msg))].

Definition message_json (msg : string) : value :=
  VObj [("message"%string, VStr (lit msg))].

(** [try { ... } catch (error) { console.error(..); res.status(500).json(..) }]:
    the one [catch] of every handler. *)
Definition catch_500 (m : M response) : world -> response * world :=
  fun w =>
    match m w with
    | (Fulfilled r, w') => (r, w')
    | (Rejected, w') => (mkResponse 500 (error_json "Internal server error"), w')
    end.

(** [v.trim()]: a TypeError unless [v] is a string. *)
Definition method_trim (v : value) : M jsstring :=
  match v with
  | VStr s => ret (trim s)
  | _ => throw
  end.

(** [new Date()]. *)
Definition new_Date : M value := fun w => (Fulfilled (VDate (clock w)), w).

(** ** The cache commands, [redisClient?.cmd(..)] *)

Definition redis_get (e : env) : M (option value) :=
  fun w =>
    if redisClient w then
      if get_fails e then (Rejected, log RedisGet w)
      else (Fulfilled (option_map fst (cache w)), log RedisGet w)
    else (Fulfilled None, w).

Definition redis_setEx (e : env) (ttl : Z) (v : value) : M unit :=
  fun w =>
    if redisClient w then
      if setEx_fails e then (Rejected, log (RedisSetEx ttl v) w)
      else (Fulfilled tt, set_cache (Some (v, ttl)) (log (RedisSetEx ttl v) w))
    else (Fulfilled tt, w).

Definition redis_del (e : env) : M unit :=
  fun w =>
    if redisClient w then
      if del_fails e then (Rejected, log RedisDel w)
      else (Fulfilled tt, set_cache None (log RedisDel w))
    else (Fulfilled tt, w).

Section Server.

(** [WHERE id = ?]: the engine's comparison of the INT column with the
    path segment bound to the statement. *)
Variable where_id : jsstring -> Z -> bool.

(** ** The statements, [db.execute(..)] *)

(** SELECT id, title, description, completed, created_at, updated_at
    FROM todos ORDER BY created_at DESC *)
Definition db_select (e : env) : M (list todo) :=
  fun w =>
    if db_fails e then (Rejected, log SqlSelect w)
    else (Fulfilled (order_by_created_at_desc (todos w)), log SqlSelect w).

(** INSERT INTO todos (title, description) VALUES (?, ?); the other
    columns take their defaults.  The result is [insertId]. *)
Definition insert_row (t d : jsstring) (w : world) : todo :=
  mkTodo (auto_increment w) (VStr t) (VStr d) (VBool false)
         (db_now w) (db_now w).

Definition db_insert (e : env) (t d : jsstring) : M Z :=
  fun w =>
    if db_fails e then (Rejected, log (SqlInsert t d) w)
    else
      (Fulfilled (auto_increment w),
       set_table (todos w ++ [insert_row t d w]) (auto_increment w + 1)
                 (log (SqlInsert t d) w)).

Definition matching (key : jsstring) (rows : list todo) : list todo :=
  filter (fun r => where_id key (id r)) rows.

(** UPDATE todos SET title = ?, description = ?, completed = ?,
    updated_at = CURRENT_TIMESTAMP WHERE id = ?; the result is
    [affectedRows]. *)
Definition update_row (t d c : value) (now : Z) (r : todo) : todo :=
  mkTodo (id r) t d c (created_at r) now.

Definition update_rows (t d c : value) (key : jsstring) (now : Z)
           (rows : list todo) : list todo :=
  map (fun r => if where_id key (id r) then update_row t d c now r else r)
      rows.

(** [db.execute] throws on a bind parameter that is [undefined], before
    anything is sent to the store. *)
Definition bindable (v : value) : bool :=
  match v with
  | VUndefined => false
  | _ => true
  end.

Definition db_update (e : env) (t d c : value) (key : jsstring) : M Z :=
  fun w =>
    if negb (bindable t && bindable d && bindable c) then (Rejected, w)
    else if db_fails e then (Rejected, log (SqlUpdate t d c key) w)
    else
      (Fulfilled (Z.of_nat (length (matching key (todos w)))),
       set_table (update_rows t d c key (db_now w) (todos w))
                 (auto_increment w)
                 (log (SqlUpdate t d c key) w)).

(** DELETE FROM todos WHERE id = ?; the result is [affectedRows]. *)
Definition delete_rows (key : jsstring) (rows : list todo) : list todo :=
  filter (fun r => negb (where_id key (id r))) rows.

Definition db_delete (e : env) (key : jsstring) : M Z :=
  fun w =>
    if db_fails e then (Rejected, log (SqlDelete key) w)
    else
      (Fulfilled (Z.of_nat (length (matching key (todos w)))),
       set_table (delete_rows key (todos w)) (auto_increment w)
                 (log (SqlDelete key) w)).

(** ** The handlers *)

(** app.get('/todos').  The cache entry is the text [JSON.stringify]
    made of the rows, never the empty string, so [if (cached)] is whether
    the key was there; [res.json(JSON.parse(cached))] sends the document
    it holds. *)
Definition get_todos (e : env) : world -> response * world :=
  catch_500
    (cached <- redis_get e ;;
     match cached with
     | Some doc => ret (mkResponse 200 doc)
     | None =>
         rows <- db_select e ;;
         _ <- redis_setEx e 300 (rows_json rows) ;;
         ret (mkResponse 200 (rows_json rows))
     end).

(** app.post('/todos') *)
Definition post_todos (e : env) (req_body : list (string * value))
  : world -> response * world :=
  catch_500
    (let title := get_prop "title" req_body in
     let description := or_default (get_prop "description" req_body) (VStr []) in
     invalid <- (if negb (truthy title) then ret true
                 else t <- method_trim title ;; ret (Nat.eqb (length t) 0)) ;;
     if invalid : bool then
       ret (mkResponse 400 (error_json "Title is required"))
     else
       t <- method_trim title ;;
       d <- method_trim description ;;
       insertId <- db_insert e t d ;;
       _ <- redis_del e ;;
       t' <- method_trim title ;;
       d' <- method_trim description ;;
       now <- new_Date ;;
       ret (mkResponse 201
              (VObj [("id", VNum insertId);
                     ("title", VStr t');
                     ("description", VStr d');
                     ("completed", VBool false);
                     ("created_at", now)]%string))).

(** app.put('/todos/:id') *)
Definition put_todo (e : env) (key : jsstring) (req_body : list (string * value))
  : world -> response * world :=
  catch_500
    (let title := get_prop "title" req_body in
     let description := get_prop "description" req_body in
     let completed := get_prop "completed" req_body in
     affectedRows <- db_update e title description completed key ;;
     if affectedRows =? 0 then
       ret (mkResponse 404 (error_json "Todo not found"))
     else
       _ <- redis_del e ;;
       ret (mkResponse 200 (message_json "Todo updated successfully"))).

(** The body of an update carries a title, a description and a completed
    flag (each may be null, none is absent). *)
Definition has_all_fields (req_body : list (string * value)) : bool :=
  bindable (get_prop "title" req_body)
  && bindable (get_prop "description" req_body)
  && bindable (get_prop "completed" req_body).

(** app.delete('/todos/:id') *)
Definition delete_todo (e : env) (key : jsstring) : world -> response * world :=
  catch_500
    (affectedRows <- db_delete e key ;;
     if affectedRows =? 0 then
       ret (mkResponse 404 (error_json "Todo not found"))
     else
       _ <- redis_del e ;;
       ret (mkResponse 200 (message_json "Todo deleted successfully"))).

(** ** Requests *)

Inductive request : Type :=
| ListTodos
| CreateTodo (req_body : list (string * value))
| UpdateTodo (key : jsstring) (req_body : list (string * value))
| DeleteTodo (key : jsstring).

Definition handle (e : env) (q : request) : world -> response * world :=
  match q with
  | ListTodos => get_todos e
  | CreateTodo b => post_todos e b
  | UpdateTodo k b => put_todo e k b
  | DeleteTodo k => delete_todo e k
  end.

Definition is_mutation (q : request) : bool :=
  match q with
  | ListTodos => false
  | _ => true
  end.

(** The status a mutation answers with when it went through. *)
Definition success_status (q : request) : Z :=
  match q with
  | CreateTodo _ => 201
  | _ => 200
  end.

(** ** The handlers, await by await *)

(** An [async] handler gives the event loop back at each [await]; what it
    awaits is one of these calls, with the type of what the call gives. *)
Inductive prim : Type -> Type :=
| AwaitGet (e : env) : prim (option value)
| AwaitSelect (e : env) : prim (list todo)
| AwaitSetEx (e : env) (ttl : Z) (v : value) : prim unit
| AwaitInsert (e : env) (t d : jsstring) : prim Z
| AwaitUpdate (e : env) (t d c : value) (key : jsstring) : prim Z
| AwaitDelete (e : env) (key : jsstring) : prim Z
| AwaitDel (e : env) : prim unit.

(** A handler at some point of its body: finished, thrown, suspended at
    an [await] with what it does when the call gives its result, or about
    to read [new Date()] (which suspends nothing). *)
Inductive task (A : Type) : Type :=
| Done (a : A)
| Thrown
| Await (X : Type) (p : prim X) (k : X -> task A)
| Now (k : value -> task A).
Arguments Thrown {A}.
Arguments Await {A X} p k.

Fixpoint then_ {A B} (t : task A) (f : A -> task B) : task B :=
  match t with
  | Done a => f a
  | Thrown => Thrown
  | Await p k => Await p (fun x => then_ (k x) f)
  | Now k => Now (fun v => then_ (k v) f)
  end.

Notation "x <~ t ;; k" := (then_ t (fun x => k))
  (at level 61, t at next level, right associativity).

Definition await {X} (p : prim X) : task X := Await p (fun x => Done x).

Definition trim_task (v : value) : task jsstring :=
  match v with
  | VStr s => Done (trim s)
  | _ => Thrown
  end.

(** The body of app.get('/todos'), inside its [try]. *)
Definition get_todos_task (e : env) : task response :=
  cached <~ await (AwaitGet e) ;;
  match cached with
  | Some doc => Done (mkResponse 200 doc)
  | None =>
      rows <~ await (AwaitSelect e) ;;
      _ <~ await (AwaitSetEx e 300 (rows_json rows)) ;;
      Done (mkResponse 200 (rows_json rows))
  end.

(** The body of app.post('/todos'). *)
Definition post_todos_task (e : env) (req_body : list (string * value))
  : task response :=
  let title := get_prop "title" req_body in
  let description := or_default (get_prop "description" req_body) (VStr []) in
  invalid <~ (if negb (truthy title) then Done true
              else t <~ trim_task title ;; Done (Nat.eqb (length t) 0)) ;;
  if invalid : bool then
    Done (mkResponse 400 (error_json "Title is required"))
  else
    t <~ trim_task title ;;
    d <~ trim_task description ;;
    insertId <~ await (AwaitInsert e t d) ;;
    _ <~ await (AwaitDel e) ;;
    t' <~ trim_task title ;;
    d' <~ trim_task description ;;
    now <~ Now (fun v => Done v) ;;
    Done (mkResponse 201
            (VObj [("id", VNum insertId);
                   ("title", VStr t');
                   ("description", VStr d');
                   ("completed", VBool false);
                   ("created_at", now)]%string)).

(** The body of app.put('/todos/:id'). *)
Definition put_todo_task (e : env) (key : jsstring)
           (req_body : list (string * value)) : task response :=
  let title := get_prop "title" req_body in
  let description := get_prop "description" req_body in
  let completed := get_prop "completed" req_body in
  affectedRows <~ await (AwaitUpdate e title description completed key) ;;
  if affectedRows =? 0 then
    Done (mkResponse 404 (error_json "Todo not found"))
  else
    _ <~ await (AwaitDel e) ;;
    Done (mkResponse 200 (message_json "Todo updated successfully")).

(** The body of app.delete('/todos/:id'). *)
Definition delete_todo_task (e : env) (key : jsstring) : task response :=
  affectedRows <~ await (AwaitDelete e key) ;;
  if affectedRows =? 0 then
    Done (mkResponse 404 (error_json "Todo not found"))
  else
    _ <~ await (AwaitDel e) ;;
    Done (mkResponse 200 (message_json "Todo deleted successfully")).

Definition handle_task (e : env) (q : request) : task response :=
  match q with
  | ListTodos => get_todos_task e
  | CreateTodo b => post_todos_task e b
  | UpdateTodo k b => put_todo_task e k b
  | DeleteTodo k => delete_todo_task e k
  end.

(** What a call does to the world when the store or the cache carries it
    out. *)
Definition exec {X} (p : prim X) : M X :=
  match p in prim X return M X with
  | AwaitGet e => redis_get e
  | AwaitSelect e => db_select e
  | AwaitSetEx e ttl v => redis_setEx e ttl v
  | AwaitInsert e t d => db_insert e t d
  | AwaitUpdate e t d c key => db_update e t d c key
  | AwaitDelete e key => db_delete e key
  | AwaitDel e => redis_del e
  end.

(** A task run to its end with nothing in between its calls. *)
Fixpoint complete {A} (t : task A) : M A :=
  fun w =>
    match t with
    | Done a => (Fulfilled a, w)
    | Thrown => (Rejected, w)
    | Await p k =>
        match exec p w with
        | (Fulfilled x, w') => complete (k x) w'
        | (Rejected, w') => (Rejected, w')
        end
    | Now k => complete (k (VDate (clock w))) w
    end.

(** The task awaits at most [n] calls before its end, whatever they
    give. *)
Fixpoint awaits_at_most {A} (n : nat) (t : task A) : Prop :=
  match t with
  | Done _ | Thrown => True
  | Now k => forall v, awaits_at_most n (k v)
  | Await p k =>
      match n with
      | O => False
      | S m => forall x, awaits_at_most m (k x)
      end
  end.

(** ** The server process: requests in flight *)

(** The code between two awaits runs without interruption: a task goes on
    until its next [await] or its end; a throw is answered 500 by the
    [catch]. *)
Fixpoint advance (t : task response) (w : world) : response + task response :=
  match t with
  | Done r => inl r
  | Thrown => inl (mkResponse 500 (error_json "Internal server error"))
  | Now k => advance (k (VDate (clock w))) w
  | Await _ _ => inr t
  end.

(** The awaited call is carried out and the task goes on from there. *)
Definition resume (t : task response) (w : world)
  : (response + task response) * world :=
  match t with
  | Await p k =>
      match exec p w with
      | (Fulfilled x, w') => (advance (k x) w', w')
      | (Rejected, w') =>
          (inl (mkResponse 500 (error_json "Internal server error")), w')
      end
  | _ => (advance t w, w)
  end.

(** The world, the requests in flight (numbered by arrival, each at an
    await), the answers given (latest first) and the number of requests
    received. *)
Record server : Type := mkServer {
  sworld : world;
  in_flight : list (nat * task response);
  answers : list (nat * response);
  arrived : nat
}.

Definition idle (w : world) : server := mkServer w [] [] 0.

Inductive event : Type :=
| Arrive (e : env) (q : request)   (* a request comes in *)
| Resume (n : nat)                 (* the call request [n] awaits completes *)
| Tick (s : Z).                    (* [s] seconds pass *)

(** The task of request [n] among those in flight, and the others. *)
Fixpoint take (n : nat) (pool : list (nat * task response))
  : option (task response * list (nat * task response)) :=
  match pool with
  | [] => None
  | (m, t) :: pool' =>
      if Nat.eqb n m then Some (t, pool')
      else match take n pool' with
           | Some (t', rest) => Some (t', (m, t) :: rest)
           | None => None
           end
  end.

Definition step (ev : event) (sv : server) : server :=
  match ev with
  | Tick s => mkServer (elapse s (sworld sv)) (in_flight sv) (answers sv)
                       (arrived sv)
  | Arrive e q =>
      match advance (handle_task e q) (sworld sv) with
      | inl r => mkServer (sworld sv) (in_flight sv)
                          ((arrived sv, r) :: answers sv) (S (arrived sv))
      | inr t => mkServer (sworld sv) (in_flight sv ++ [(arrived sv, t)])
                          (answers sv) (S (arrived sv))
      end
  | Resume n =>
      match take n (in_flight sv) with
      | None => sv
      | Some (t, rest) =>
          match resume t (sworld sv) with
          | (inl r, w') => mkServer w' rest ((n, r) :: answers sv) (arrived sv)
          | (inr t', w') => mkServer w' (rest ++ [(n, t')]) (answers sv)
                                     (arrived sv)
          end
      end
  end.

Definition serve (evs : list event) (sv : server) : server :=
  fold_left (fun sv ev => step ev sv) evs sv.

(** Request [n] arriving and served to its end before anything else
    happens: no handler awaits more than three calls. *)
Definition alone (n : nat) (e : env) (q : request) : list event :=
  [Arrive e q; Resume n; Resume n; Resume n].

(** Requests served one at a time, some seconds passing before each. *)
Fixpoint one_at_a_time (n : nat) (steps : list (Z * env * request))
  : list event :=
  match steps with
  | [] => []
  | (s, e, q) :: steps' => Tick s :: alone n e q ++ one_at_a_time (S n) steps'
  end.

End Server.

(** ** A concrete engine comparison and a freshly started server *)

(** The path segment read as a decimal numeral; a segment that is not
    one matches no row. *)
Fixpoint decimal (acc : Z) (s : jsstring) : option Z :=
  match s with
  | [] => Some acc
  | c :: s' =>
      if ((48 <=? c) && (c <=? 57))%N
      then decimal (10 * acc + Z.of_N (c - 48)) s'
      else None
  end.

Definition decimal_id (key : jsstring) (n : Z) : bool :=
  match key with
  | [] => false
  | _ => match decimal 0 key with
         | Some m => m =? n
         | None => false
         end
  end.

(** A server just started over an empty table whose counter is at 1: no
    cache entry, no call made yet.  (schema.sql also loads four sample
    rows; the properties below are about any table.) *)
Definition boot (client : bool) (db_time clock_ms : Z) : world :=
  mkWorld [] 1 db_time client None clock_ms [].

(** The environment of a request with the outcome of [del] replaced. *)
Definition with_del (b : bool) (e : env) : env :=
  mkEnv (db_fails e) (get_fails e) (setEx_fails e) b.

(** The object a 201 carries. *)
Definition created_json (i : Z) (t d : jsstring) (ms : Z) : value :=
  VObj [("id", VNum i);
        ("title", VStr t);
        ("description", VStr d);
        ("completed", VBool false);
        ("created_at", VDate ms)]%string.

(** The list as the store has it now, as a JSON document. *)
Definition snapshot (w : world) : value :=
  rows_json (order_by_created_at_desc (todos w)).

(** The cache entry, when the process can read one, is the list as the
    store has it now. *)
Definition coherent (w : world) : Prop :=
  redisClient w = true ->
  forall doc ttl, cache w = Some (doc, ttl) -> doc = snapshot w.

(** [ORDER BY created_at DESC] between two neighbours. *)
Definition newer_first (a b : todo) : Prop := created_at b <= created_at a.

(** List reads one after the other with nothing in between but time:
    [gaps] are the seconds that pass before each read. *)
Fixpoint read_many (gaps : list Z) (w : world) : list response * world :=
  match gaps with
  | [] => ([], w)
  | s :: gaps' =>
      let (r, w1) := get_todos all_well (elapse s w) in
      let (rs, w2) := read_many gaps' w1 in
      (r :: rs, w2)
  end.

(** ** Identifiers of the table *)

(** The identifiers of the rows are distinct and all below the
    AUTO_INCREMENT counter. *)
Definition ids_fresh (w : world) : Prop :=
  NoDup (map id (todos w))
  /\ Forall (fun r => id r < auto_increment w) (todos w).

(** ** The browser client, App.js *)

(** [{ ...o, k: v }] *)
Fixpoint set_prop (k : string) (v : value) (o : list (string * value))
  : list (string * value) :=
  match o with
  | [] => [(k, v)]
  | (k', v') :: o' =>
      if String.eqb k k' then (k, v) :: o' else (k', v') :: set_prop k v o'
  end.

(** [x === y] on two values read from JSON: two objects or arrays are
    never the same one. *)
Definition strict_eq (x y : value) : bool :=
  match x, y with
  | VUndefined, VUndefined => true
  | VNull, VNull => true
  | VBool a, VBool b => Bool.eqb a b
  | VNum a, VNum b => a =? b
  | VStr a, VStr b => if list_eq_dec N.eq_dec a b then true else false
  | VDate a, VDate b => a =? b
  | _, _ => false
  end.

(** [`/todos/${id}`]: the decimal numeral of a number. *)
Definition to_key (n : Z) : jsstring :=
  lit (NilZero.string_of_int (Z.to_int n)).

Module App.

(** The notifications of [react-hot-toast], by what they say. *)
Inductive toast : Type :=
| FetchFailed       (* toast.error: the list could not be loaded *)
| TitleRequired     (* toast.error: enter a title *)
| Added             (* toast.success: the todo was added *)
| AddFailed         (* toast.error: adding failed *)
| MarkedDone        (* toast.success: the todo is completed *)
| MarkedUndone      (* toast.success: the todo is back to not completed *)
| ToggleFailed      (* toast.error: changing the state failed *)
| Deleted           (* toast.success: the todo was deleted *)
| DeleteFailed.     (* toast.error: deleting failed *)

(** The state of the component: [todos], [loading], [newTodo] and the
    notifications shown so far, latest first. *)
Record state : Type := mkState {
  todos : value;
  loading : bool;
  newTodo : jsstring * jsstring;
  toasts : list toast
}.

(** useState([]), useState(true), useState({ title: '', description: '' }) *)
Definition initial : state := mkState (VArr []) true ([], []) [].

Definition setTodos (v : value) (st : state) : state :=
  mkState v (loading st) (newTodo st) (toasts st).

Definition setLoading (b : bool) (st : state) : state :=
  mkState (todos st) b (newTodo st) (toasts st).

Definition setNewTodo (n : jsstring * jsstring) (st : state) : state :=
  mkState (todos st) (loading st) n (toasts st).

Definition notify (t : toast) (st : state) : state :=
  mkState (todos st) (loading st) (newTodo st) (t :: toasts st).

(** What happens to a request on its way. *)
Inductive transport : Type :=
| Delivered
| LostRequest      (* the request does not reach the server *)
| LostResponse.    (* the server handles it, the answer does not come back *)

(** An axios call: the promise is fulfilled with the response when its
    status is 2xx and rejected otherwise, also when no answer comes back
    (network error, the timeout of 10000 ms).  A call to a path is taken
    to reach the route of that path on the server. *)
Definition api (tr : transport) (srv : world -> response * world)
           (w : world) : option response * world :=
  match tr with
  | LostRequest => (None, w)
  | LostResponse => (None, snd (srv w))
  | Delivered =>
      let (r, w') := srv w in
      (if (200 <=? status r) && (status r <? 300) then Some r else None, w')
  end.

(** [todo.id === id] in a callback of [find], [map] or [filter], for a
    number [id]: a TypeError ([None]) on an element that is undefined or
    null, [false] on one that has no [id]. *)
Definition has_id (n : Z) (x : value) : option bool :=
  match x with
  | VUndefined | VNull => None
  | VObj props => Some (strict_eq (get_prop "id" props) (VNum n))
  | _ => Some false
  end.

(** The methods [find], [map], [filter] exist on arrays only. *)
Definition elements (v : value) : option (list value) :=
  match v with
  | VArr xs => Some xs
  | _ => None
  end.

(** [[x, ...todos]] for an array [todos]; [None] is the TypeError of a
    value that cannot be spread (the state is never set to a string by
    the calls below). *)
Definition prepend (x : value) (v : value) : option value :=
  match v with
  | VArr xs => Some (VArr (x :: xs))
  | _ => None
  end.

(** [todos.find(t => t.id === id)]: [Some None] is [undefined]. *)
Fixpoint find_id (n : Z) (xs : list value) : option (option value) :=
  match xs with
  | [] => Some None
  | x :: xs' =>
      match has_id n x with
      | None => None
      | Some true => Some (Some x)
      | Some false => find_id n xs'
      end
  end.

(** [{ ...todo }] of what [find] gave: an object's own properties, none
    for [undefined]. *)
Definition spread (todo : option value) : list (string * value) :=
  match todo with
  | Some (VObj props) => props
  | _ => []
  end.

(** [todos.map(todo => todo.id === id ? { ...todo, completed: c } : todo)] *)
Fixpoint map_completed (n : Z) (c : value) (xs : list value)
  : option (list value) :=
  match xs with
  | [] => Some []
  | x :: xs' =>
      match has_id n x with
      | None => None
      | Some b =>
          match map_completed n c xs' with
          | None => None
          | Some ys =>
              Some ((if b then VObj (set_prop "completed" c (spread (Some x)))
                     else x) :: ys)
          end
      end
  end.

(** [todos.filter(todo => todo.id !== id)] *)
Fixpoint filter_out (n : Z) (xs : list value) : option (list value) :=
  match xs with
  | [] => Some []
  | x :: xs' =>
      match has_id n x with
      | None => None
      | Some b =>
          match filter_out n xs' with
          | None => None
          | Some ys => Some (if b then ys else x :: ys)
          end
      end
  end.

(** The card shows a modification date: [todo.updated_at !== todo.created_at]. *)
Definition shows_modified (props : list (string * value)) : bool :=
  negb (strict_eq (get_prop "updated_at" props) (get_prop "created_at" props)).

Section Client.

Variable where_id : jsstring -> Z -> bool.

(** fetchTodos *)
Definition fetchTodos (tr : transport) (e : env) (st : state) (w : world)
  : state * world :=
  let st1 := setLoading true st in
  match api tr (get_todos e) w with
  | (Some r, w') => (setLoading false (setTodos (body r) st1), w')
  | (None, w') => (setLoading false (notify FetchFailed st1), w')
  end.

(** addTodo *)
Definition addTodo (tr : transport) (e : env) (st : state) (w : world)
  : state * world :=
  let (t, d) := newTodo st in
  if Nat.eqb (length (trim t)) 0 then (notify TitleRequired st, w)
  else
    match api tr (post_todos e [("title", VStr t); ("description", VStr d)]%string) w with
    | (Some r, w') =>
        match prepend (body r) (todos st) with
        | Some ts => (notify Added (setNewTodo ([], []) (setTodos ts st)), w')
        | None => (notify AddFailed st, w')
        end
    | (None, w') => (notify AddFailed st, w')
    end.

(** toggleTodo *)
Definition toggleTodo (tr : transport) (e : env) (n : Z) (completed : value)
           (st : state) (w : world) : state * world :=
  match option_map (find_id n) (elements (todos st)) with
  | Some (Some todo) =>
      let flipped := VBool (negb (truthy completed)) in
      match api tr (put_todo where_id e (to_key n)
                             (set_prop "completed" flipped (spread todo))) w with
      | (Some _, w') =>
          match option_map (map_completed n flipped) (elements (todos st)) with
          | Some (Some ts) =>
              (notify (if truthy completed then MarkedUndone else MarkedDone)
                      (setTodos (VArr ts) st), w')
          | _ => (notify ToggleFailed st, w')
          end
      | (None, w') => (notify ToggleFailed st, w')
      end
  | _ => (notify ToggleFailed st, w)
  end.

(** deleteTodo; [confirmed] is the answer to [window.confirm]. *)
Definition deleteTodo (confirmed : bool) (tr : transport) (e : env) (n : Z)
           (st : state) (w : world) : state * world :=
  if negb confirmed then (st, w)
  else
    match api tr (delete_todo where_id e (to_key n)) w with
    | (Some _, w') =>
        match option_map (filter_out n) (elements (todos st)) with
        | Some (Some ts) => (notify Deleted (setTodos (VArr ts) st), w')
        | _ => (notify DeleteFailed st, w')
        end
    | (None, w') => (notify DeleteFailed st, w')
    end.

End Client.

End App.

(** * Properties *)

Unset Implicit Arguments.

(** ** [trim] *)

Lemma trimStart_white s :
  forallb is_white_space s = true -> trimStart s = [].
Proof.
  induction s as [|c s IH]; simpl; [reflexivity|].
  intros H. apply andb_true_iff in H as [Hc Hs].
  rewrite Hc. auto.
Qed.

Lemma trim_white s : forallb is_white_space s = true -> trim s = [].
Proof.
  intros H. unfold trim, trimEnd. rewrite (trimStart_white _ H). reflexivity.
Qed.

Lemma trimStart_nil_white s :
  trimStart s = [] -> forallb is_white_space s = true.
Proof.
  induction s as [|c s IH]; simpl; [reflexivity|].
  destruct (is_white_space c); [auto | discriminate].
Qed.

Lemma trim_nil_white s : trim s = [] -> forallb is_white_space s = true.
Proof.
  unfold trim, trimEnd. intros H.
  apply (f_equal (@rev N)) in H. rewrite rev_involutive in H. simpl in H.
  apply trimStart_nil_white in H.
  assert (Hall : forallb is_white_space (trimStart s) = true).
  { rewrite forallb_forall in *. intros x Hx. apply H, in_rev.
    rewrite rev_involutive. exact Hx. }
  clear H. induction s as [|c s IH]; simpl in *; [reflexivity|].
  destruct (is_white_space c) eqn:E; simpl; [auto|].
  simpl in Hall. rewrite E in Hall. discriminate.
Qed.

Lemma trim_nonempty s : trim s <> [] -> Nat.eqb (length s) 0 = false.
Proof.
  destruct s; [intros H; now contradiction H | reflexivity].
Qed.

Lemma length_eqb_0 (A : Type) (l : list A) :
  Nat.eqb (length l) 0 = true <-> l = [].
Proof.
  destruct l; simpl; split; congruence.
Qed.

(** ** Create *)

(** [post_todos] on a body whose title is a string that [trim] leaves
    non-empty and whose description, after the default, is a string: the
    whole case analysis on what the environment does. *)
Lemma post_todos_strings e req_body w t d :
  get_prop "title" req_body = VStr t ->
  trim t <> [] ->
  or_default (get_prop "description" req_body) (VStr []) = VStr d ->
  post_todos e req_body w =
    if db_fails e then
      (mkResponse 500 (error_json "Internal server error"),
       log (SqlInsert (trim t) (trim d)) w)
    else
      let w1 := set_table (todos w ++ [insert_row (trim t) (trim d) w])
                          (auto_increment w + 1)
                          (log (SqlInsert (trim t) (trim d)) w) in
      if redisClient w then
        if del_fails e then
          (mkResponse 500 (error_json "Internal server error"),
           log RedisDel w1)
        else
          (mkResponse 201
             (created_json (auto_increment w) (trim t) (trim d) (clock w)),
           set_cache None (log RedisDel w1))
      else
        (mkResponse 201
           (created_json (auto_increment w) (trim t) (trim d) (clock w)),
         w1).
Proof.
  intros Ht Hne Hd.
  unfold post_todos, catch_500, bind. rewrite Ht, Hd. simpl.
  rewrite (trim_nonempty _ Hne). simpl.
  destruct (Nat.eqb (length (trim t)) 0) eqn:E.
  { apply length_eqb_0 in E. contradiction. }
  unfold db_insert, redis_del, log, set_table, set_cache; simpl.
  destruct (db_fails e); [reflexivity|].
  destruct (redisClient w); [|reflexivity].
  destruct (del_fails e); reflexivity.
Qed.

(** A title that is no string and yet truthy, or a description that is
    neither absent nor a string, stops the handler at a [trim] call. *)
Lemma post_todos_description_not_string e req_body w t :
  get_prop "title" req_body = VStr t ->
  trim t <> [] ->
  get_prop "description" req_body <> VUndefined ->
  (forall s, get_prop "description" req_body <> VStr s) ->
  post_todos e req_body w =
    (mkResponse 500 (error_json "Internal server error"), w).
Proof.
  intros Ht Hne Hu Hs.
  unfold post_todos, catch_500, bind. rewrite Ht. simpl.
  rewrite (trim_nonempty _ Hne). simpl.
  destruct (Nat.eqb (length (trim t)) 0) eqn:E.
  { apply length_eqb_0 in E. contradiction. }
  destruct (get_prop "description" req_body) eqn:D; simpl;
    try reflexivity.
  - contradiction.
  - exfalso. apply (Hs s). reflexivity.
Qed.

(** A falsy title, or a string title that [trim] empties, is answered
    400 with the world as it was. *)
Lemma post_todos_rejected e req_body w :
  (truthy (get_prop "title" req_body) = false
   \/ exists s, get_prop "title" req_body = VStr s /\ trim s = []) ->
  post_todos e req_body w =
    (mkResponse 400 (error_json "Title is required"), w).
Proof.
  intros [H | (s & Hs & Hnil)];
    unfold post_todos, catch_500, bind.
  - rewrite H. reflexivity.
  - rewrite Hs. simpl. destruct (Nat.eqb (length s) 0); simpl.
    + reflexivity.
    + rewrite Hnil. reflexivity.
Qed.

(** Whatever the request and the environment, a create is answered 201,
    400 or 500; it is answered 201 only on the path of
    [post_todos_strings]. *)
Lemma post_todos_201_inv e req_body w :
  status (fst (post_todos e req_body w)) = 201 ->
  exists t d,
    get_prop "title" req_body = VStr t /\ trim t <> [] /\
    or_default (get_prop "description" req_body) (VStr []) = VStr d /\
    db_fails e = false /\ (redisClient w = true -> del_fails e = false).
Proof.
  intros H.
  destruct (get_prop "title" req_body) as [| |b|n|t|ms|xs|ps] eqn:Ht;
    try (unfold post_todos, catch_500, bind in H; rewrite Ht in H;
         simpl in H; discriminate).
  - unfold post_todos, catch_500, bind in H; rewrite Ht in H.
    destruct b; simpl in H; discriminate.
  - unfold post_todos, catch_500, bind in H; rewrite Ht in H. simpl in H.
    destruct (n =? 0); simpl in H; discriminate.
  - destruct (list_eq_dec N.eq_dec (trim t) []) as [Hnil | Hne].
    { rewrite post_todos_rejected in H by (right; eauto). discriminate. }
    destruct (or_default (get_prop "description" req_body) (VStr []))
      as [| |b|n|d|ms|xs|ps] eqn:Hd.
    5:{ exists t, d. rewrite (post_todos_strings e _ w _ _ Ht Hne Hd) in H.
        destruct (db_fails e); [discriminate|].
        repeat split; auto.
        intros Hc. rewrite Hc in H. destruct (del_fails e);
          [discriminate | reflexivity]. }
    all: rewrite post_todos_description_not_string with (t := t) in H;
      try discriminate; auto;
      unfold or_default in Hd;
      destruct (get_prop "description" req_body); congruence.
Qed.

(** C5. A create request whose title is missing, empty, or made of white
    space only is answered 400 (not the 500 of a server error) and
    inserts no row: the world after it (table, counter, cache entry,
    calls made) is the world before it, whatever the environment does. *)
Theorem create_without_title_rejected e req_body w :
  (get_prop "title" req_body = VUndefined
   \/ exists s, get_prop "title" req_body = VStr s
                /\ forallb is_white_space s = true) ->
  post_todos e req_body w =
    (mkResponse 400 (error_json "Title is required"), w).
Proof.
  intros [Hu | (s & Hs & Hw)]; apply post_todos_rejected.
  - left. rewrite Hu. reflexivity.
  - right. exists s. split; [exact Hs | apply trim_white, Hw].
Qed.

Lemma create_without_title_rejected_witness :
  let b := [("title"%string, VStr (lit "   "))] in
  let w := boot true 1700000000 1700000000123 in
  (get_prop "title" b = VUndefined
   \/ exists s, get_prop "title" b = VStr s
                /\ forallb is_white_space s = true)
  /\ post_todos all_well b w =
       (mkResponse 400 (error_json "Title is required"), w).
Proof.
  assert (H : get_prop "title" [("title"%string, VStr (lit "   "))] = VUndefined
              \/ exists s, get_prop "title" [("title"%string, VStr (lit "   "))] = VStr s
                           /\ forallb is_white_space s = true).
  { right. exists (lit "   "). split; reflexivity. }
  split; [exact H|].
  exact (create_without_title_rejected all_well _ _ H).
Defined.

(** C9. In a create whose title is a string that is not empty after
    trimming, the empty-string default of the description is taken only
    when the field is absent.  A description that is present and is not a
    string (null, a number, a boolean, an array, an object) raises at
    [description.trim()] before [db.execute] is called: the answer is 500
    and the world is untouched, so no row is inserted and no INSERT was
    issued.  An absent description gives 201 with the empty description
    when the insert and the invalidation go through. *)
Theorem create_description_default_only_when_absent e req_body w t :
  get_prop "title" req_body = VStr t ->
  trim t <> [] ->
  (get_prop "description" req_body <> VUndefined ->
   (forall s, get_prop "description" req_body <> VStr s) ->
   post_todos e req_body w =
     (mkResponse 500 (error_json "Internal server error"), w))
  /\ (get_prop "description" req_body = VUndefined ->
      db_fails e = false ->
      (redisClient w = true -> del_fails e = false) ->
      fst (post_todos e req_body w) =
        mkResponse 201 (created_json (auto_increment w) (trim t) [] (clock w))).
Proof.
  intros Ht Hne. split.
  - intros Hu Hs. exact (post_todos_description_not_string e _ w t Ht Hne Hu Hs).
  - intros Hu Hdb Hdel.
    rewrite (post_todos_strings e req_body w t [] Ht Hne)
      by (rewrite Hu; reflexivity).
    rewrite Hdb. simpl.
    destruct (redisClient w); [rewrite Hdel by reflexivity|]; reflexivity.
Qed.

Lemma create_description_default_only_when_absent_witness :
  let w := boot true 1700000000 1700000000123 in
  let with_null := [("title"%string, VStr (lit "Buy milk"));
                    ("description"%string, VNull)] in
  let without := [("title"%string, VStr (lit "Buy milk"))] in
  post_todos all_well with_null w =
    (mkResponse 500 (error_json "Internal server error"), w)
  /\ fst (post_todos all_well without w) =
       mkResponse 201 (created_json 1 (lit "Buy milk") [] 1700000000123).
Proof.
  split.
  - refine (proj1 (create_description_default_only_when_absent
                     all_well _ _ (lit "Buy milk") _ _) _ _).
    + reflexivity.
    + vm_compute. discriminate.
    + simpl. discriminate.
    + simpl. discriminate.
  - refine (proj2 (create_description_default_only_when_absent
                     all_well [("title"%string, VStr (lit "Buy milk"))]
                     (boot true 1700000000 1700000000123)
                     (lit "Buy milk") _ _) _ _ _).
    + reflexivity.
    + vm_compute. discriminate.
    + reflexivity.
    + reflexivity.
    + reflexivity.
Defined.

(** C4, as the handler has it.  A create request whose title is a string
    that is not empty after trimming and whose description is absent or a
    string, when the insert and the invalidation of the cache key go
    through, adds one row that holds the trimmed title, the trimmed
    description (the empty string when the field is absent) and
    completed = false, and is answered 201 with the identifier the store
    assigned and those same field values. *)
Theorem create_inserts_normalized e req_body w t d :
  get_prop "title" req_body = VStr t ->
  trim t <> [] ->
  (get_prop "description" req_body = VUndefined /\ d = []
   \/ get_prop "description" req_body = VStr d) ->
  db_fails e = false ->
  (redisClient w = true -> del_fails e = false) ->
  fst (post_todos e req_body w) =
    mkResponse 201
      (created_json (auto_increment w) (trim t) (trim d) (clock w))
  /\ todos (snd (post_todos e req_body w)) =
       todos w ++ [mkTodo (auto_increment w) (VStr (trim t)) (VStr (trim d))
                          (VBool false) (db_now w) (db_now w)]
  /\ (get_prop "description" req_body = VUndefined -> trim d = []).
Proof.
  intros Ht Hne Hd Hdb Hdel.
  assert (Hdef : or_default (get_prop "description" req_body) (VStr []) = VStr d).
  { destruct Hd as [[Hu ->] | Hs]; [rewrite Hu | rewrite Hs]; reflexivity. }
  rewrite (post_todos_strings e req_body w t d Ht Hne Hdef), Hdb. simpl.
  split; [|split].
  - destruct (redisClient w); [rewrite Hdel by reflexivity|]; reflexivity.
  - destruct (redisClient w); [rewrite Hdel by reflexivity|]; reflexivity.
  - intros Hu. destruct Hd as [[_ ->] | Hs]; [reflexivity | congruence].
Qed.

Lemma create_inserts_normalized_witness :
  let b := [("title"%string, VStr (lit "  Buy milk "));
            ("description"%string, VStr (lit " 2% "))] in
  let w := boot true 1700000000 1700000000123 in
  fst (post_todos all_well b w) =
    mkResponse 201 (created_json 1 (lit "Buy milk") (lit "2%") 1700000000123)
  /\ todos (snd (post_todos all_well b w)) =
       [mkTodo 1 (VStr (lit "Buy milk")) (VStr (lit "2%")) (VBool false)
               1700000000 1700000000].
Proof.
  pose proof (create_inserts_normalized all_well
                [("title"%string, VStr (lit "  Buy milk "));
                 ("description"%string, VStr (lit " 2% "))]
                (boot true 1700000000 1700000000123)
                (lit "  Buy milk ") (lit " 2% ")) as H.
  destruct H as (H1 & H2 & _).
  - reflexivity.
  - vm_compute. discriminate.
  - right. reflexivity.
  - reflexivity.
  - reflexivity.
  - split; [exact H1 | exact H2].
Defined.

(** C4 as it is written fails: the title is "Buy milk", the description
    is an explicit null, nothing fails in the environment, and the answer
    is 500 with no row inserted. *)
Lemma create_null_description_counterexample :
  let b := [("title"%string, VStr (lit "Buy milk"));
            ("description"%string, VNull)] in
  let w := boot true 1700000000 1700000000123 in
  trim (lit "Buy milk") = lit "Buy milk"
  /\ status (fst (post_todos all_well b w)) = 500
  /\ todos (snd (post_todos all_well b w)) = todos w.
Proof.
  vm_compute. repeat split.
Qed.

(** C10. The body of a 201 is built by the handler, not read back from
    the store: it is the object of exactly [id], [title], [description],
    [completed] and [created_at] (the row as the store gives it has
    [updated_at] as well), its [created_at] is the process clock read by
    [new Date()] when the response is built, while the row the store holds
    carries the store's own CURRENT_TIMESTAMP; the two differ as soon as
    the two clocks do.  No SELECT is issued: the calls of the request are
    the INSERT and, with a cache client, the DEL. *)
Theorem create_response_built_in_handler e req_body w :
  status (fst (post_todos e req_body w)) = 201 ->
  exists i t d row,
    body (fst (post_todos e req_body w)) =
      VObj [("id", VNum i); ("title", VStr t); ("description", VStr d);
            ("completed", VBool false);
            ("created_at", VDate (clock (snd (post_todos e req_body w))))]%string
    /\ todos (snd (post_todos e req_body w)) = todos w ++ [row]
    /\ id row = i /\ created_at row = db_now w
    /\ calls (snd (post_todos e req_body w)) =
         (if redisClient w then [RedisDel] else []) ++ SqlInsert t d :: calls w
    /\ row_json row =
         VObj [("id", VNum i); ("title", VStr t); ("description", VStr d);
               ("completed", VNum 0);
               ("created_at", VDate (1000 * db_now w));
               ("updated_at", VDate (1000 * db_now w))]%string
    /\ (clock w <> 1000 * db_now w ->
        VDate (clock (snd (post_todos e req_body w)))
        <> VDate (1000 * created_at row)).
Proof.
  intros H.
  destruct (post_todos_201_inv e req_body w H) as (t & d & Ht & Hne & Hd & Hdb & Hdel).
  rewrite (post_todos_strings e req_body w t d Ht Hne Hd), Hdb. simpl.
  exists (auto_increment w), (trim t), (trim d), (insert_row (trim t) (trim d) w).
  destruct (redisClient w); [rewrite Hdel by reflexivity|]; simpl;
    (repeat split; try reflexivity; intros Hc Heq; injection Heq; auto).
Qed.

Lemma create_response_built_in_handler_witness :
  let b := [("title"%string, VStr (lit "Buy milk"))] in
  let w := boot true 1700000000 1700000000123 in
  exists i t d row,
    body (fst (post_todos all_well b w)) =
      VObj [("id", VNum i); ("title", VStr t); ("description", VStr d);
            ("completed", VBool false);
            ("created_at", VDate 1700000000123)]%string
    /\ todos (snd (post_todos all_well b w)) = [row]
    /\ id row = i /\ created_at row = 1700000000.
Proof.
  destruct (create_response_built_in_handler all_well
              [("title"%string, VStr (lit "Buy milk"))]
              (boot true 1700000000 1700000000123) eq_refl)
    as (i & t & d & row & H1 & H2 & H3 & H4 & _).
  exists i, t, d, row. repeat split; assumption.
Defined.

(** ** Update and delete *)

Section UpdateDelete.

Variable where_id : jsstring -> Z -> bool.

Lemma matching_none key rows :
  (forall r, In r rows -> where_id key (id r) = false) ->
  matching where_id key rows = [].
Proof.
  induction rows as [|x rows IH]; simpl; intros H; [reflexivity|].
  rewrite (H x) by (left; reflexivity). apply IH.
  intros r Hr. apply H. right. exact Hr.
Qed.

Lemma matching_some key rows r :
  In r rows -> where_id key (id r) = true ->
  (Z.of_nat (length (matching where_id key rows)) =? 0) = false.
Proof.
  intros Hin Hm.
  assert (Hf : In r (matching where_id key rows)).
  { apply filter_In. split; assumption. }
  destruct (matching where_id key rows); [contradiction|].
  simpl length. apply Z.eqb_neq. lia.
Qed.

Lemma affected_zero key rows :
  (Z.of_nat (length (matching where_id key rows)) =? 0) = true <->
  (forall r, In r rows -> where_id key (id r) = false).
Proof.
  split.
  - intros H r Hr. destruct (where_id key (id r)) eqn:E; [|reflexivity].
    rewrite (matching_some key rows r Hr E) in H. discriminate.
  - intros H. rewrite matching_none by exact H. reflexivity.
Qed.

Lemma update_none key f rows :
  (forall r, In r rows -> where_id key (id r) = false) ->
  map (fun r => if where_id key (id r) then f r else r) rows = rows.
Proof.
  induction rows as [|x rows IH]; simpl; intros H; [reflexivity|].
  rewrite (H x) by (left; reflexivity). f_equal. apply IH.
  intros r Hr. apply H. right. exact Hr.
Qed.

Lemma delete_none key rows :
  (forall r, In r rows -> where_id key (id r) = false) ->
  filter (fun r => negb (where_id key (id r))) rows = rows.
Proof.
  induction rows as [|x rows IH]; simpl; intros H; [reflexivity|].
  rewrite (H x) by (left; reflexivity). simpl. f_equal. apply IH.
  intros r Hr. apply H. right. exact Hr.
Qed.

(** [put_todo] on a body that lacks one of the three fields: the driver
    throws, nothing reaches the store. *)
Lemma put_todo_unbound e key req_body w :
  has_all_fields req_body = false ->
  put_todo where_id e key req_body w =
    (mkResponse 500 (error_json "Internal server error"), w).
Proof.
  unfold has_all_fields, put_todo, catch_500, bind, db_update.
  intros ->. reflexivity.
Qed.

(** [put_todo] on a body with the three fields, by cases on what the
    environment does. *)
Lemma put_todo_cases e key req_body w :
  has_all_fields req_body = true ->
  put_todo where_id e key req_body w =
    if db_fails e then
      (mkResponse 500 (error_json "Internal server error"),
       log (SqlUpdate (get_prop "title" req_body)
                      (get_prop "description" req_body)
                      (get_prop "completed" req_body) key) w)
    else
      let w1 := set_table (update_rows where_id (get_prop "title" req_body)
                                       (get_prop "description" req_body)
                                       (get_prop "completed" req_body)
                                       key (db_now w) (todos w))
                          (auto_increment w)
                          (log (SqlUpdate (get_prop "title" req_body)
                      (get_prop "description" req_body)
                      (get_prop "completed" req_body) key) w) in
      if Z.of_nat (length (matching where_id key (todos w))) =? 0 then
        (mkResponse 404 (error_json "Todo not found"), w1)
      else if redisClient w then
        if del_fails e then
          (mkResponse 500 (error_json "Internal server error"),
           log RedisDel w1)
        else
          (mkResponse 200 (message_json "Todo updated successfully"),
           set_cache None (log RedisDel w1))
      else
        (mkResponse 200 (message_json "Todo updated successfully"), w1).
Proof.
  unfold has_all_fields, put_todo, catch_500, bind, db_update.
  intros ->. cbn [negb].
  destruct (db_fails e); [reflexivity|]. simpl.
  destruct (Z.of_nat (length (matching where_id key (todos w))) =? 0);
    [reflexivity|].
  unfold redis_del; simpl.
  destruct (redisClient w); [|reflexivity].
  destruct (del_fails e); reflexivity.
Qed.

(** [delete_todo], by cases on what the environment does. *)
Lemma delete_todo_cases e key w :
  delete_todo where_id e key w =
    if db_fails e then
      (mkResponse 500 (error_json "Internal server error"),
       log (SqlDelete key) w)
    else
      let w1 := set_table (delete_rows where_id key (todos w)) (auto_increment w)
                          (log (SqlDelete key) w) in
      if Z.of_nat (length (matching where_id key (todos w))) =? 0 then
        (mkResponse 404 (error_json "Todo not found"), w1)
      else if redisClient w then
        if del_fails e then
          (mkResponse 500 (error_json "Internal server error"),
           log RedisDel w1)
        else
          (mkResponse 200 (message_json "Todo deleted successfully"),
           set_cache None (log RedisDel w1))
      else
        (mkResponse 200 (message_json "Todo deleted successfully"), w1).
Proof.
  unfold delete_todo, catch_500, bind, db_delete.
  destruct (db_fails e); [reflexivity|]. simpl.
  destruct (Z.of_nat (length (matching where_id key (todos w))) =? 0);
    [reflexivity|].
  unfold redis_del; simpl.
  destruct (redisClient w); [|reflexivity].
  destruct (del_fails e); reflexivity.
Qed.

Lemma set_table_same w c :
  set_table (todos w) (auto_increment w) (log c w) = log c w.
Proof. reflexivity. Qed.

(** C6, as the handlers have it.  A delete, and an update whose body
    carries a title, a description and a completed flag, whose identifier
    matches no row, when the statement is executed, is answered 404 and
    changes no row: the world after it is the world before it with one
    more call, the UPDATE or the DELETE itself (no query precedes it, the
    cache is not touched).  The 404 is read off the count of rows the
    statement reports: with the statement executed, the answer is 404
    exactly when that count is 0.  An update whose body lacks one of the
    three fields is answered 500 whatever its identifier, the world
    untouched: the driver throws on the undefined parameter and no
    statement reaches the store. *)
Theorem unknown_id_not_found e key req_body w :
  db_fails e = false ->
  ((forall r, In r (todos w) -> where_id key (id r) = false) ->
   (has_all_fields req_body = true ->
    put_todo where_id e key req_body w =
      (mkResponse 404 (error_json "Todo not found"),
       log (SqlUpdate (get_prop "title" req_body)
                      (get_prop "description" req_body)
                      (get_prop "completed" req_body) key) w))
   /\ delete_todo where_id e key w =
        (mkResponse 404 (error_json "Todo not found"),
         log (SqlDelete key) w))
  /\ (has_all_fields req_body = true ->
      (status (fst (put_todo where_id e key req_body w)) = 404 <->
       Z.of_nat (length (matching where_id key (todos w))) = 0))
  /\ (status (fst (delete_todo where_id e key w)) = 404 <->
      Z.of_nat (length (matching where_id key (todos w))) = 0)
  /\ (has_all_fields req_body = false ->
      put_todo where_id e key req_body w =
        (mkResponse 500 (error_json "Internal server error"), w)).
Proof.
  intros Hdb. rewrite delete_todo_cases, Hdb. simpl.
  split; [|split; [|split]].
  - intros Hnone. split.
    + intros Hb. rewrite (put_todo_cases e key req_body w Hb), Hdb. simpl.
      rewrite (proj2 (affected_zero key (todos w)) Hnone).
      unfold update_rows. rewrite update_none by exact Hnone.
      rewrite set_table_same. reflexivity.
    + rewrite (proj2 (affected_zero key (todos w)) Hnone).
      unfold delete_rows. rewrite delete_none by exact Hnone.
      rewrite set_table_same. reflexivity.
  - intros Hb. rewrite (put_todo_cases e key req_body w Hb), Hdb. simpl.
    destruct (Z.of_nat (length (matching where_id key (todos w))) =? 0) eqn:E.
    + apply Z.eqb_eq in E. simpl. tauto.
    + apply Z.eqb_neq in E.
      destruct (redisClient w), (del_fails e); simpl;
        (split; [discriminate | contradiction]).
  - destruct (Z.of_nat (length (matching where_id key (todos w))) =? 0) eqn:E.
    + apply Z.eqb_eq in E. simpl. tauto.
    + apply Z.eqb_neq in E.
      destruct (redisClient w), (del_fails e); simpl;
        (split; [discriminate | contradiction]).
  - apply put_todo_unbound.
Qed.

(** C7, as the handler has it.  An update whose identifier matches a row
    and whose body carries a title, a description and a completed flag,
    when the statement is executed, binds the three to the statement as
    they came (whatever they are: not trimmed, an empty or blank title
    included), so the row holds them, with its updated_at set to the
    store's CURRENT_TIMESTAMP and its id and created_at kept; the rows
    that do not match are kept.  The answer is never 400, and it is 200
    as soon as the invalidation of the cache key goes through.  A body
    that lacks one of the three fields is answered 500 and writes
    nothing. *)
Theorem update_writes_fields_as_received e key req_body w r :
  db_fails e = false ->
  In r (todos w) ->
  where_id key (id r) = true ->
  (has_all_fields req_body = true ->
   todos (snd (put_todo where_id e key req_body w)) =
     map (fun x => if where_id key (id x)
                   then mkTodo (id x)
                               (get_prop "title" req_body)
                               (get_prop "description" req_body)
                               (get_prop "completed" req_body)
                               (created_at x) (db_now w)
                   else x)
         (todos w)
   /\ In (mkTodo (id r)
                 (get_prop "title" req_body)
                 (get_prop "description" req_body)
                 (get_prop "completed" req_body)
                 (created_at r) (db_now w))
         (todos (snd (put_todo where_id e key req_body w)))
   /\ status (fst (put_todo where_id e key req_body w)) <> 400
   /\ ((redisClient w = true -> del_fails e = false) ->
       fst (put_todo where_id e key req_body w) =
         mkResponse 200 (message_json "Todo updated successfully")))
  /\ (has_all_fields req_body = false ->
      put_todo where_id e key req_body w =
        (mkResponse 500 (error_json "Internal server error"), w)).
Proof.
  intros Hdb Hin Hm. split; [|apply put_todo_unbound].
  intros Hb.
  rewrite (put_todo_cases e key req_body w Hb), Hdb. simpl.
  rewrite (matching_some key (todos w) r Hin Hm).
  assert (Hrow : In (mkTodo (id r) (get_prop "title" req_body)
                            (get_prop "description" req_body)
                            (get_prop "completed" req_body)
                            (created_at r) (db_now w))
                    (update_rows where_id (get_prop "title" req_body)
                                 (get_prop "description" req_body)
                                 (get_prop "completed" req_body)
                                 key (db_now w) (todos w))).
  { unfold update_rows. apply in_map_iff. exists r. rewrite Hm. auto. }
  destruct (redisClient w) eqn:Hc; [destruct (del_fails e) eqn:Hd|]; simpl;
    (split; [reflexivity | split; [exact Hrow | split; [discriminate|]]]);
    intros H; try reflexivity.
  specialize (H eq_refl). discriminate.
Qed.

End UpdateDelete.

Lemma unknown_id_not_found_witness :
  let w := snd (post_todos all_well [("title"%string, VStr (lit "Buy milk"))]
                           (boot true 1700000000 1700000000123)) in
  let b := [("title"%string, VStr (lit "x"));
            ("description"%string, VStr []);
            ("completed"%string, VBool true)] in
  status (fst (put_todo decimal_id all_well (lit "7") b w)) = 404
  /\ todos (snd (put_todo decimal_id all_well (lit "7") b w)) = todos w
  /\ status (fst (delete_todo decimal_id all_well (lit "7") w)) = 404
  /\ todos (snd (delete_todo decimal_id all_well (lit "7") w)) = todos w.
Proof.
  pose proof (unknown_id_not_found decimal_id all_well (lit "7")
                [("title"%string, VStr (lit "x"));
                 ("description"%string, VStr []);
                 ("completed"%string, VBool true)]
                (snd (post_todos all_well
                        [("title"%string, VStr (lit "Buy milk"))]
                        (boot true 1700000000 1700000000123)))
                eq_refl) as (H & _).
  destruct H as (Hput & Hdel).
  - intros r [<- | []]. reflexivity.
  - cbv zeta. rewrite (Hput eq_refl), Hdel. repeat split.
Defined.

(** C6 as it is written fails: no row has the identifier 7, nothing fails
    in the environment, the body of the update has a title only, and the
    answer is 500, not 404. *)
Lemma unknown_id_partial_body_counterexample :
  let w := snd (post_todos all_well [("title"%string, VStr (lit "Buy milk"))]
                           (boot true 1700000000 1700000000123)) in
  map id (todos w) = [1]
  /\ decimal_id (lit "7") 1 = false
  /\ put_todo decimal_id all_well (lit "7")
              [("title"%string, VStr (lit "x"))] w =
       (mkResponse 500 (error_json "Internal server error"), w).
Proof.
  vm_compute. repeat split.
Qed.

Lemma update_writes_fields_as_received_witness :
  let w := snd (post_todos all_well [("title"%string, VStr (lit "Buy milk"))]
                           (boot true 1700000000 1700000000123)) in
  let b := [("title"%string, VStr (lit "  "));
            ("description"%string, VStr (lit " 2% "));
            ("completed"%string, VBool true)] in
  todos (snd (put_todo decimal_id all_well (lit "1") b (elapse 60 w))) =
    [mkTodo 1 (VStr (lit "  ")) (VStr (lit " 2% ")) (VBool true)
            1700000000 1700000060]
  /\ status (fst (put_todo decimal_id all_well (lit "1") b (elapse 60 w))) = 200.
Proof.
  pose proof (proj1 (update_writes_fields_as_received decimal_id all_well
                (lit "1")
                [("title"%string, VStr (lit "  "));
                 ("description"%string, VStr (lit " 2% "));
                 ("completed"%string, VBool true)]
                (elapse 60
                   (snd (post_todos all_well
                           [("title"%string, VStr (lit "Buy milk"))]
                           (boot true 1700000000 1700000000123))))
                (mkTodo 1 (VStr (lit "Buy milk")) (VStr []) (VBool false)
                        1700000000 1700000000)
                eq_refl (or_introl eq_refl) eq_refl) eq_refl)
    as (H1 & _ & _ & H4).
  cbv zeta. split.
  - rewrite H1. reflexivity.
  - rewrite H4; reflexivity.
Defined.

(** C7 as it is written fails: the row 1 exists, nothing fails in the
    environment, the body of the update has a title and a description but
    no completed flag, and the answer is 500 with the row as it was. *)
Lemma update_partial_body_counterexample :
  let w := snd (post_todos all_well [("title"%string, VStr (lit "Buy milk"))]
                           (boot true 1700000000 1700000000123)) in
  let b := [("title"%string, VStr (lit "Buy bread"));
            ("description"%string, VStr (lit "rye"))] in
  decimal_id (lit "1") 1 = true
  /\ status (fst (put_todo decimal_id all_well (lit "1") b w)) = 500
  /\ todos (snd (put_todo decimal_id all_well (lit "1") b w)) =
       [mkTodo 1 (VStr (lit "Buy milk")) (VStr []) (VBool false)
               1700000000 1700000000].
Proof.
  vm_compute. repeat split.
Qed.

(** ** The list read *)

Lemma insert_desc_perm r l : Permutation (r :: l) (insert_desc r l).
Proof.
  induction l as [|x l IH]; simpl; [apply Permutation_refl|].
  destruct (created_at x <=? created_at r); [apply Permutation_refl|].
  apply perm_trans with (x :: r :: l); [apply perm_swap|].
  apply perm_skip, IH.
Qed.

Lemma order_by_created_at_desc_perm l :
  Permutation l (order_by_created_at_desc l).
Proof.
  induction l as [|r l IH]; simpl; [apply perm_nil|].
  apply perm_trans with (r :: order_by_created_at_desc l).
  - apply perm_skip, IH.
  - apply insert_desc_perm.
Qed.

Lemma insert_desc_hd r a l :
  created_at r < created_at a -> HdRel newer_first a l ->
  HdRel newer_first a (insert_desc r l).
Proof.
  intros Hlt H. destruct l as [|x l]; simpl.
  - constructor. unfold newer_first. lia.
  - destruct (created_at x <=? created_at r); constructor.
    + unfold newer_first. lia.
    + inversion H; assumption.
Qed.

Lemma insert_desc_sorted r l :
  Sorted newer_first l -> Sorted newer_first (insert_desc r l).
Proof.
  induction 1 as [|a l Hs IH Hhd]; simpl.
  - repeat constructor.
  - destruct (created_at a <=? created_at r) eqn:E.
    + apply Z.leb_le in E. repeat constructor; assumption.
    + apply Z.leb_gt in E. constructor; [exact IH|].
      apply insert_desc_hd; assumption.
Qed.

Lemma order_by_created_at_desc_sorted l :
  StronglySorted newer_first (order_by_created_at_desc l).
Proof.
  apply Sorted_StronglySorted.
  - intros a b c Hab Hbc. unfold newer_first in *. lia.
  - induction l as [|r l IH]; simpl; [constructor|].
    apply insert_desc_sorted, IH.
Qed.

(** [get_todos], by cases on the cache client, the cache entry and what
    the environment does. *)
Lemma get_todos_cases e w :
  get_todos e w =
    if redisClient w then
      if get_fails e then
        (mkResponse 500 (error_json "Internal server error"), log RedisGet w)
      else
        match cache w with
        | Some (doc, _) => (mkResponse 200 doc, log RedisGet w)
        | None =>
            if db_fails e then
              (mkResponse 500 (error_json "Internal server error"),
               log SqlSelect (log RedisGet w))
            else if setEx_fails e then
              (mkResponse 500 (error_json "Internal server error"),
               log (RedisSetEx 300 (snapshot w))
                   (log SqlSelect (log RedisGet w)))
            else
              (mkResponse 200 (snapshot w),
               set_cache (Some (snapshot w, 300))
                 (log (RedisSetEx 300 (snapshot w))
                      (log SqlSelect (log RedisGet w))))
        end
    else if db_fails e then
      (mkResponse 500 (error_json "Internal server error"), log SqlSelect w)
    else (mkResponse 200 (snapshot w), log SqlSelect w).
Proof.
  unfold get_todos, catch_500, bind, redis_get, db_select, snapshot.
  destruct (redisClient w) eqn:Hc.
  - destruct (get_fails e); [reflexivity|].
    destruct (cache w) as [[doc ttl]|]; simpl; [reflexivity|].
    destruct (db_fails e); [reflexivity|].
    unfold redis_setEx; simpl. rewrite Hc.
    destruct (setEx_fails e); reflexivity.
  - simpl. destruct (db_fails e); [reflexivity|].
    unfold redis_setEx; simpl. rewrite Hc. reflexivity.
Qed.

Lemma get_todos_keeps_table e w : todos (snd (get_todos e w)) = todos w.
Proof.
  rewrite get_todos_cases.
  destruct (redisClient w), (get_fails e), (cache w) as [[? ?]|],
    (db_fails e), (setEx_fails e); reflexivity.
Qed.

Lemma get_todos_keeps_client e w :
  redisClient (snd (get_todos e w)) = redisClient w.
Proof.
  rewrite get_todos_cases.
  destruct (redisClient w) eqn:Hc, (get_fails e), (cache w) as [[? ?]|],
    (db_fails e), (setEx_fails e); exact Hc.
Qed.

Lemma coherent_elapse s w : coherent w -> coherent (elapse s w).
Proof.
  unfold coherent, elapse, snapshot; simpl. intros H Hc doc ttl.
  destruct (cache w) as [[v t]|]; [|discriminate].
  destruct (t - s <=? 0); [discriminate|].
  intros Heq. injection Heq as <- _. exact (H Hc v t eq_refl).
Qed.

Lemma snapshot_elapse s w : snapshot (elapse s w) = snapshot w.
Proof. reflexivity. Qed.

Lemma snapshot_get_todos e w : snapshot (snd (get_todos e w)) = snapshot w.
Proof. unfold snapshot. rewrite get_todos_keeps_table. reflexivity. Qed.

Lemma coherent_get_todos e w : coherent w -> coherent (snd (get_todos e w)).
Proof.
  intros H Hc doc ttl. rewrite get_todos_keeps_client in Hc.
  rewrite snapshot_get_todos. specialize (H Hc).
  rewrite get_todos_cases, Hc.
  destruct (get_fails e); [exact (H doc ttl)|].
  destruct (cache w) as [[v t]|] eqn:Hv.
  - simpl. rewrite Hv. exact (H doc ttl).
  - destruct (db_fails e); [simpl; rewrite Hv; discriminate|].
    destruct (setEx_fails e); simpl; [rewrite Hv; discriminate|].
    intros [= <- _]. reflexivity.
Qed.

Lemma coherent_boot client t c : coherent (boot client t c).
Proof. intros _ doc ttl [=]. Qed.

(** A read in a coherent world, with nothing failing, answers the list as
    the store has it. *)
Lemma get_todos_coherent w :
  coherent w -> fst (get_todos all_well w) = mkResponse 200 (snapshot w).
Proof.
  intros H. rewrite get_todos_cases. simpl.
  destruct (redisClient w) eqn:Hc; [|reflexivity].
  destruct (cache w) as [[v t]|] eqn:Hv; [|reflexivity].
  simpl. rewrite (H Hc v t Hv). reflexivity.
Qed.

Lemma read_many_coherent gaps : forall w,
  coherent w ->
  Forall (fun r => r = mkResponse 200 (snapshot w)) (fst (read_many gaps w))
  /\ todos (snd (read_many gaps w)) = todos w
  /\ coherent (snd (read_many gaps w)).
Proof.
  induction gaps as [|s gaps IH]; intros w H; simpl.
  - repeat split; [constructor | exact H].
  - pose proof (get_todos_coherent (elapse s w) (coherent_elapse s w H)) as Hr.
    pose proof (coherent_get_todos all_well _ (coherent_elapse s w H)) as Hc.
    pose proof (get_todos_keeps_table all_well (elapse s w)) as Ht.
    pose proof (snapshot_get_todos all_well (elapse s w)) as Hs.
    destruct (get_todos all_well (elapse s w)) as [r w1]. simpl in *.
    destruct (IH w1 Hc) as (Hall & Htab & Hcoh).
    destruct (read_many gaps w1) as [rs w2]. simpl in *.
    repeat split.
    + constructor; [rewrite Hr; reflexivity|].
      rewrite Hs in Hall. exact Hall.
    + rewrite Htab, Ht. reflexivity.
    + exact Hcoh.
Qed.

(** C1, as the handler has it.  Without a cache client ([redisClient] is
    undefined) the read skips the cache, queries the store and answers 200
    with all the rows in order.  A cache command that rejects is caught by
    the handler's one [catch] like any other error: a rejected GET gives
    500 before the store is queried, and on a miss a rejected SETEX gives
    500 after it was queried.  A rejected SELECT gives 500 as well, and on
    a miss with nothing rejected the answer is 200 with all the rows. *)
Theorem list_falls_back_without_client e w :
  (redisClient w = false -> db_fails e = false ->
   get_todos e w = (mkResponse 200 (snapshot w), log SqlSelect w))
  /\ (redisClient w = true -> get_fails e = true ->
      get_todos e w =
        (mkResponse 500 (error_json "Internal server error"),
         log RedisGet w))
  /\ (redisClient w = true -> get_fails e = false -> cache w = None ->
      db_fails e = false -> setEx_fails e = true ->
      get_todos e w =
        (mkResponse 500 (error_json "Internal server error"),
         log (RedisSetEx 300 (snapshot w)) (log SqlSelect (log RedisGet w))))
  /\ (redisClient w = true -> get_fails e = false -> cache w = None ->
      db_fails e = false -> setEx_fails e = false ->
      fst (get_todos e w) = mkResponse 200 (snapshot w))
  /\ (db_fails e = true ->
      redisClient w = false
      \/ (redisClient w = true /\ get_fails e = false /\ cache w = None) ->
      status (fst (get_todos e w)) = 500)
  /\ Permutation (todos w) (order_by_created_at_desc (todos w))
  /\ StronglySorted newer_first (order_by_created_at_desc (todos w)).
Proof.
  rewrite get_todos_cases.
  repeat split.
  - intros -> ->. reflexivity.
  - intros -> ->. reflexivity.
  - intros -> -> -> -> ->. reflexivity.
  - intros -> -> -> -> ->. reflexivity.
  - intros -> [-> | (-> & -> & ->)]; reflexivity.
  - apply order_by_created_at_desc_perm.
  - apply order_by_created_at_desc_sorted.
Qed.

Lemma list_falls_back_without_client_witness :
  let w := snd (post_todos all_well [("title"%string, VStr (lit "Buy milk"))]
                           (boot false 1700000000 1700000000123)) in
  fst (get_todos (mkEnv false true true true) w) =
    mkResponse 200
      (VArr [row_json (mkTodo 1 (VStr (lit "Buy milk")) (VStr [])
                              (VBool false) 1700000000 1700000000)]).
Proof.
  cbv zeta.
  rewrite (proj1 (list_falls_back_without_client
                    (mkEnv false true true true)
                    (snd (post_todos all_well
                            [("title"%string, VStr (lit "Buy milk"))]
                            (boot false 1700000000 1700000000123))))
             eq_refl eq_refl).
  reflexivity.
Defined.

(** C1 as it is written fails: the cache client is there, the store
    answers, the GET on the cache key rejects, and the read is answered
    500 without the store having been queried. *)
Lemma list_cache_error_counterexample :
  let w := boot true 1700000000 1700000000123 in
  let e := mkEnv false true false false in
  db_fails e = false
  /\ status (fst (get_todos e w)) = 500
  /\ calls (snd (get_todos e w)) = [RedisGet].
Proof.
  vm_compute. repeat split.
Qed.

(** C8, as the handler has it.  Whenever the cache entry, if there is
    one, is the list as the store has it, a list read with nothing failing
    answers 200 with all the rows, the more recently created first, and
    such reads repeated with nothing but time in between all give that
    same answer and leave the table as it was.  On a cache hit the read
    answers the cached document with one GET on the cache and no call to
    the store. *)
Theorem list_newest_first_idempotent gaps w :
  coherent w ->
  fst (get_todos all_well w) =
    mkResponse 200 (rows_json (order_by_created_at_desc (todos w)))
  /\ Permutation (todos w) (order_by_created_at_desc (todos w))
  /\ StronglySorted newer_first (order_by_created_at_desc (todos w))
  /\ Forall (fun r => r = fst (get_todos all_well w))
            (fst (read_many gaps (snd (get_todos all_well w))))
  /\ todos (snd (read_many gaps (snd (get_todos all_well w)))) = todos w
  /\ (forall e doc ttl,
        redisClient w = true -> cache w = Some (doc, ttl) ->
        get_fails e = false ->
        get_todos e w = (mkResponse 200 doc, log RedisGet w)
        /\ doc = rows_json (order_by_created_at_desc (todos w))).
Proof.
  intros H.
  pose proof (get_todos_coherent w H) as Hr.
  destruct (read_many_coherent gaps (snd (get_todos all_well w))
              (coherent_get_todos all_well w H)) as (Hall & Htab & _).
  rewrite snapshot_get_todos in Hall. rewrite get_todos_keeps_table in Htab.
  rewrite Hr.
  split; [reflexivity|]. split; [apply order_by_created_at_desc_perm|].
  split; [apply order_by_created_at_desc_sorted|].
  split; [exact Hall|]. split; [exact Htab|].
  intros e doc ttl Hc Hv Hg. split.
  - rewrite get_todos_cases, Hc, Hg, Hv. reflexivity.
  - exact (H Hc doc ttl Hv).
Qed.

Lemma list_newest_first_idempotent_witness :
  let w := elapse 5
             (snd (post_todos all_well
                     [("title"%string, VStr (lit "Buy milk"))]
                     (boot true 1700000000 1700000000123))) in
  let w' := snd (post_todos all_well [("title"%string, VStr (lit "Walk"))] w) in
  fst (get_todos all_well w') =
    mkResponse 200
      (VArr [row_json (mkTodo 2 (VStr (lit "Walk")) (VStr [])
                              (VBool false) 1700000005 1700000005);
             row_json (mkTodo 1 (VStr (lit "Buy milk")) (VStr [])
                              (VBool false) 1700000000 1700000000)])
  /\ Forall (fun r => r = fst (get_todos all_well w'))
            (fst (read_many [10; 400; 0] (snd (get_todos all_well w')))).
Proof.
  cbv zeta.
  match goal with
  | |- fst (get_todos all_well ?w) = _ /\ _ =>
      assert (Hc : coherent w) by (intros _ doc ttl [=]);
      destruct (list_newest_first_idempotent [10; 400; 0] w Hc)
        as (H1 & _ & _ & H4 & _)
  end.
  split; [rewrite H1; reflexivity | exact H4].
Defined.

(** C8 as it is written fails.  A list read fills the cache with the
    empty list; a create then inserts its row but the DEL of the cache key
    rejects (the create is answered 500); the next list read, with nothing
    failing, answers the cached empty list although the table holds a row;
    300 seconds later, nothing written in between, the same read answers
    the row. *)
Lemma list_stale_counterexample :
  let w0 := boot true 1700000000 1700000000123 in
  let w1 := snd (get_todos all_well w0) in
  let w2 := snd (post_todos (mkEnv false false false true)
                            [("title"%string, VStr (lit "Buy milk"))] w1) in
  let row := mkTodo 1 (VStr (lit "Buy milk")) (VStr []) (VBool false)
                    1700000000 1700000000 in
  let r3 := get_todos all_well w2 in
  let r4 := get_todos all_well (elapse 300 (snd r3)) in
  todos w2 = [row]
  /\ fst r3 = mkResponse 200 (VArr [])
  /\ todos (snd r3) = [row]
  /\ fst r4 = mkResponse 200 (VArr [row_json row])
  /\ todos (snd r4) = [row].
Proof.
  vm_compute. repeat split.
Qed.

(** ** The handlers await by await, and run whole *)

Section Tasks.

Variable where_id : jsstring -> Z -> bool.

Lemma complete_then {A B} (t : task A) (f : A -> task B) : forall w,
  complete where_id (then_ t f) w =
    bind (complete where_id t) (fun a => complete where_id (f a)) w.
Proof.
  induction t as [a| |X p k IH|k IH]; intros w; unfold bind; simpl.
  - reflexivity.
  - reflexivity.
  - destruct (exec where_id p w) as [[x|] w']; [|reflexivity].
    rewrite IH. reflexivity.
  - rewrite IH. reflexivity.
Qed.

Lemma complete_await {X} (p : prim X) w :
  complete where_id (await p) w = exec where_id p w.
Proof.
  simpl. destruct (exec where_id p w) as [[x|] w']; reflexivity.
Qed.

Lemma complete_trim_task v w :
  complete where_id (trim_task v) w = method_trim v w.
Proof. destruct v; reflexivity. Qed.

(** A handler's task run whole, under the handler's [catch], is the
    handler. *)
Lemma handle_task_complete e q w :
  catch_500 (complete where_id (handle_task e q)) w = handle where_id e q w.
Proof.
  destruct q as [|b|k b|k]; cbn [handle_task handle].
  - unfold get_todos, get_todos_task, catch_500.
    rewrite complete_then. unfold bind. rewrite complete_await. simpl.
    destruct (redis_get e w) as [[[doc|]|] w1]; reflexivity.
  - unfold post_todos, post_todos_task, catch_500, bind.
    destruct (get_prop "title" b) as [| |[|]|n|t|ms|xs|ps]; simpl;
      try reflexivity.
    + destruct (n =? 0); reflexivity.
    + destruct (Nat.eqb (length t) 0); simpl; [reflexivity|].
      destruct (Nat.eqb (length (trim t)) 0); simpl; [reflexivity|].
      destruct (or_default (get_prop "description" b) (VStr []));
        reflexivity.
  - unfold put_todo, put_todo_task, catch_500.
    rewrite complete_then. unfold bind. rewrite complete_await. simpl.
    destruct (db_update where_id e (get_prop "title" b)
                        (get_prop "description" b) (get_prop "completed" b)
                        k w) as [[n|] w1]; try reflexivity.
    destruct (n =? 0); reflexivity.
  - unfold delete_todo, delete_todo_task, catch_500.
    rewrite complete_then. unfold bind. rewrite complete_await. simpl.
    destruct (db_delete where_id e k w) as [[n|] w1]; try reflexivity.
    destruct (n =? 0); reflexivity.
Qed.

(** No handler awaits more than three calls. *)
Lemma handle_task_awaits e q : awaits_at_most 3 (handle_task e q).
Proof.
  destruct q as [|b|k b|k]; cbn [handle_task].
  - unfold get_todos_task. simpl. intros [doc|]; simpl; auto.
  - unfold post_todos_task.
    destruct (get_prop "title" b) as [| |[|]|n|t|ms|xs|ps]; simpl; auto.
    + destruct (n =? 0); simpl; auto.
    + destruct (Nat.eqb (length t) 0); simpl; auto.
      destruct (Nat.eqb (length (trim t)) 0); simpl; auto.
      destruct (or_default (get_prop "description" b) (VStr []));
        simpl; auto.
  - unfold put_todo_task. simpl. intros n. destruct (n =? 0); simpl; auto.
  - unfold delete_todo_task. simpl. intros n. destruct (n =? 0); simpl; auto.
Qed.

(** Resuming a request that is not in flight does nothing. *)
Lemma resumes_of_none fuel n w ans m :
  serve where_id (repeat (Resume n) fuel) (mkServer w [] ans m) =
    mkServer w [] ans m.
Proof.
  induction fuel as [|fuel IH]; simpl; [reflexivity | exact IH].
Qed.

(** A request in flight alone, resumed as often as it awaits, ends as its
    task run whole. *)
Lemma resumes_complete (t : task response) : forall fuel w ans n m,
  awaits_at_most fuel t ->
  serve where_id (repeat (Resume n) fuel)
    (match advance t w with
     | inl r => mkServer w [] ((n, r) :: ans) m
     | inr t' => mkServer w [(n, t')] ans m
     end) =
  mkServer (snd (catch_500 (complete where_id t) w)) []
           ((n, fst (catch_500 (complete where_id t) w)) :: ans) m.
Proof.
  induction t as [r| |X p k IH|k IH]; intros fuel w ans n m Hfuel.
  - simpl. apply resumes_of_none.
  - simpl. apply resumes_of_none.
  - destruct fuel as [|fuel]; [contradiction|]. simpl in Hfuel.
    cbn [advance repeat]. unfold serve. cbn [fold_left].
    unfold step at 2. cbn [in_flight take sworld answers arrived].
    rewrite Nat.eqb_refl. cbn [resume].
    unfold catch_500. cbn [complete].
    destruct (exec where_id p w) as [[x|] w'].
    + specialize (IH x fuel w' ans n m (Hfuel x)).
      unfold serve, catch_500 in IH. cbn [app].
      destruct (advance (k x) w'); exact IH.
    + apply resumes_of_none.
  - cbn [advance]. unfold catch_500. cbn [complete].
    apply IH. apply Hfuel.
Qed.

(** A request that arrives while no other is in flight and is served to
    its end before anything else happens is its handler run whole. *)
Lemma served_alone e q w ans n :
  serve where_id (alone n e q) (mkServer w [] ans n) =
    mkServer (snd (handle where_id e q w)) []
             ((n, fst (handle where_id e q w)) :: ans) (S n).
Proof.
  rewrite <- handle_task_complete.
  rewrite <- (resumes_complete (handle_task e q) 3 w ans n (S n)
                (handle_task_awaits e q)).
  unfold alone, serve. cbn [fold_left repeat].
  unfold step at 4. cbn [sworld in_flight answers arrived app].
  destruct (advance (handle_task e q) w); reflexivity.
Qed.

Lemma serve_app evs1 evs2 sv :
  serve where_id (evs1 ++ evs2) sv =
    serve where_id evs2 (serve where_id evs1 sv).
Proof. unfold serve. apply fold_left_app. Qed.

End Tasks.

(** ** Mutations and the cache key *)

(** A create either is on the path of [post_todos_strings] or is answered
    the same whatever the environment does, the world left as it was. *)
Lemma post_todos_classify req_body w :
  (exists t d,
     get_prop "title" req_body = VStr t /\ trim t <> [] /\
     or_default (get_prop "description" req_body) (VStr []) = VStr d)
  \/ (exists r, forall e, post_todos e req_body w = (r, w)).
Proof.
  destruct (get_prop "title" req_body) as [| |b|n|t|ms|xs|ps] eqn:Ht;
    try (right; eexists; intros e;
         unfold post_todos, catch_500, bind; rewrite Ht; reflexivity).
  - right. destruct b; eexists; intros e;
      unfold post_todos, catch_500, bind; rewrite Ht; reflexivity.
  - right. destruct (n =? 0) eqn:E; eexists; intros e;
      unfold post_todos, catch_500, bind; rewrite Ht; simpl; rewrite E;
      reflexivity.
  - destruct (list_eq_dec N.eq_dec (trim t) []) as [Hnil | Hne].
    { right. eexists. intros e.
      apply post_todos_rejected. right. eauto. }
    destruct (or_default (get_prop "description" req_body) (VStr []))
      as [| |b|n|d|ms|xs|ps] eqn:Hd.
    5:{ left. exists t, d. auto. }
    all: right; eexists; intros e;
      apply post_todos_description_not_string with (t := t); auto;
      unfold or_default in Hd;
      destruct (get_prop "description" req_body); congruence.
Qed.

Lemma get_todos_after_invalidation e s w :
  (redisClient w = true -> cache w = None) ->
  (status (fst (get_todos e (elapse s w))) = 200 ->
   fst (get_todos e (elapse s w)) = mkResponse 200 (snapshot w)
   /\ calls (snd (get_todos e (elapse s w))) =
        (if redisClient w
         then [RedisSetEx 300 (snapshot w); SqlSelect; RedisGet]
         else [SqlSelect]) ++ calls w)
  /\ (db_fails e = false -> get_fails e = false -> setEx_fails e = false ->
      status (fst (get_todos e (elapse s w))) = 200).
Proof.
  intros Hnone. rewrite get_todos_cases.
  change (redisClient (elapse s w)) with (redisClient w).
  change (snapshot (elapse s w)) with (snapshot w).
  destruct (redisClient w) eqn:Hc.
  - assert (Hm : cache (elapse s w) = None).
    { unfold elapse; simpl. rewrite Hnone; reflexivity. }
    rewrite Hm.
    destruct (get_fails e), (db_fails e), (setEx_fails e); simpl;
      (split; [intros; try discriminate; split; reflexivity
              | intros; try discriminate; reflexivity]).
  - destruct (db_fails e); simpl;
      (split; [intros; try discriminate; split; reflexivity
              | intros; try discriminate; reflexivity]).
Qed.

Section Mutations.

Variable where_id : jsstring -> Z -> bool.



(** C3, as the handlers have it.  Without a cache client the invalidation
    is skipped and what the DEL would have done does not matter.  With a
    client, a request that is answered with its success status when the
    DEL goes through is answered 500 when the DEL rejects, although the
    table has been changed just the same; the cache entry stays as it
    was. *)
Theorem failed_invalidation_answers_500 e q w :
  is_mutation q = true ->
  (redisClient w = false ->
   handle where_id (with_del true e) q w =
   handle where_id (with_del false e) q w)
  /\ (redisClient w = true ->
      status (fst (handle where_id (with_del false e) q w)) = success_status q ->
      status (fst (handle where_id (with_del true e) q w)) = 500
      /\ todos (snd (handle where_id (with_del true e) q w)) =
           todos (snd (handle where_id (with_del false e) q w))
      /\ cache (snd (handle where_id (with_del true e) q w)) = cache w).
Proof.
  intros Hq. destruct q as [|b|k b|k]; [discriminate| | |]; simpl.
  - split.
    + intros Hc.
      destruct (post_todos_classify b w)
        as [(t & d & Ht & Hne & Hd) | (r & Hr)].
      * rewrite !(post_todos_strings _ b w t d Ht Hne Hd). simpl.
        rewrite Hc. reflexivity.
      * rewrite !Hr. reflexivity.
    + intros Hc H.
      destruct (post_todos_201_inv _ b w H)
        as (t & d & Ht & Hne & Hd & Hdb & _).
      rewrite !(post_todos_strings _ b w t d Ht Hne Hd). simpl in *.
      rewrite Hdb, Hc. simpl. repeat split.
  - destruct (has_all_fields b) eqn:Hb;
      [|rewrite !(put_todo_unbound where_id _ k b w Hb); simpl;
        split; [reflexivity | discriminate]].
    rewrite !(put_todo_cases where_id _ k b w Hb). simpl. split.
    + intros ->. reflexivity.
    + intros ->. destruct (db_fails e); [discriminate|].
      destruct (Z.of_nat (length (matching where_id k (todos w))) =? 0);
        [discriminate|].
      simpl. repeat split.
  - rewrite !delete_todo_cases. simpl. split.
    + intros ->. reflexivity.
    + intros ->. destruct (db_fails e); [discriminate|].
      destruct (Z.of_nat (length (matching where_id k (todos w))) =? 0);
        [discriminate|].
      simpl. repeat split.
Qed.

(** Coherence of the cache entry is kept by every request whose DEL, if
    it is issued, goes through. *)
Lemma coherent_handle e q w :
  coherent w ->
  (redisClient w = true -> del_fails e = false) ->
  coherent (snd (handle where_id e q w)).
Proof.
  intros H Hdel. destruct q as [|b|k b|k]; simpl.
  - apply coherent_get_todos, H.
  - destruct (post_todos_classify b w) as [(t & d & Ht & Hne & Hd) | (r & Hw)].
    + rewrite (post_todos_strings e b w t d Ht Hne Hd).
      destruct (db_fails e); [exact H|]. simpl.
      destruct (redisClient w) eqn:Hc.
      * rewrite Hdel by reflexivity. intros _ doc ttl [=].
      * intros Hc'. simpl in Hc'. congruence.
    + rewrite Hw. exact H.
  - destruct (has_all_fields b) eqn:Hb;
      [|rewrite (put_todo_unbound where_id e k b w Hb); exact H].
    rewrite (put_todo_cases where_id e k b w Hb).
    destruct (db_fails e); [exact H|]. simpl.
    destruct (Z.of_nat (length (matching where_id k (todos w))) =? 0) eqn:E.
    + pose proof (proj1 (affected_zero where_id k (todos w)) E) as E'.
      unfold update_rows.
      rewrite update_none by exact E'. exact H.
    + destruct (redisClient w) eqn:Hc.
      * rewrite Hdel by reflexivity. intros _ doc ttl [=].
      * intros Hc'. simpl in Hc'. congruence.
  - rewrite delete_todo_cases.
    destruct (db_fails e); [exact H|]. simpl.
    destruct (Z.of_nat (length (matching where_id k (todos w))) =? 0) eqn:E.
    + pose proof (proj1 (affected_zero where_id k (todos w)) E) as E'.
      unfold delete_rows.
      rewrite delete_none by exact E'. exact H.
    + destruct (redisClient w) eqn:Hc.
      * rewrite Hdel by reflexivity. intros _ doc ttl [=].
      * intros Hc'. simpl in Hc'. congruence.
Qed.

(** So it holds in every world the server reaches from its start when
    it serves its requests one at a time and no DEL has rejected. *)
Lemma coherent_one_at_a_time steps : forall w ans n,
  coherent w ->
  Forall (fun step => del_fails (snd (fst step)) = false) steps ->
  in_flight (serve where_id (one_at_a_time n steps) (mkServer w [] ans n)) = []
  /\ coherent (sworld (serve where_id (one_at_a_time n steps)
                             (mkServer w [] ans n))).
Proof.
  induction steps as [|[[s e] q] steps IH]; intros w ans n H Hall.
  - split; [reflexivity | exact H].
  - inversion Hall as [|? ? He Hrest]; subst. simpl in He.
    cbn [one_at_a_time].
    change (Tick s :: alone n e q ++ one_at_a_time (S n) steps)
      with ([Tick s] ++ alone n e q ++ one_at_a_time (S n) steps).
    rewrite !serve_app.
    change (serve where_id [Tick s] (mkServer w [] ans n))
      with (mkServer (elapse s w) [] ans n).
    rewrite served_alone.
    apply IH; [|exact Hrest].
    apply coherent_handle; [apply coherent_elapse, H | intros _; exact He].
Qed.

End Mutations.



Lemma failed_invalidation_answers_500_witness :
  let w := boot true 1700000000 1700000000123 in
  let q := CreateTodo [("title"%string, VStr (lit "Buy milk"))] in
  status (fst (handle decimal_id (with_del true all_well) q w)) = 500
  /\ todos (snd (handle decimal_id (with_del true all_well) q w)) =
       [mkTodo 1 (VStr (lit "Buy milk")) (VStr []) (VBool false)
               1700000000 1700000000].
Proof.
  cbv zeta.
  destruct (proj2 (failed_invalidation_answers_500 decimal_id all_well
                     (CreateTodo [("title"%string, VStr (lit "Buy milk"))])
                     (boot true 1700000000 1700000000123) eq_refl)
                  eq_refl eq_refl)
    as (H500 & Htab & _).
  split; [exact H500 | rewrite Htab; reflexivity].
Defined.

(** C3 as it is written fails: with the store answering and the DEL of
    the cache key rejecting, a create, an update and a delete are each
    answered 500 (not 201, 200, 200), the row inserted, updated, deleted
    all the same. *)
Lemma failed_invalidation_counterexample :
  let e := mkEnv false false false true in
  let w0 := boot true 1700000000 1700000000123 in
  let w1 := snd (post_todos all_well
                            [("title"%string, VStr (lit "Buy milk"))] w0) in
  let b := [("title"%string, VStr (lit "Buy milk"));
            ("description"%string, VStr (lit "2%"));
            ("completed"%string, VBool true)] in
  (status (fst (post_todos e [("title"%string, VStr (lit "Buy milk"))] w0)) = 500
   /\ todos (snd (post_todos e [("title"%string, VStr (lit "Buy milk"))] w0)) =
        [mkTodo 1 (VStr (lit "Buy milk")) (VStr []) (VBool false)
                1700000000 1700000000])
  /\ (status (fst (put_todo decimal_id e (lit "1") b w1)) = 500
      /\ todos (snd (put_todo decimal_id e (lit "1") b w1)) =
           [mkTodo 1 (VStr (lit "Buy milk")) (VStr (lit "2%")) (VBool true)
                   1700000000 1700000000])
  /\ (status (fst (delete_todo decimal_id e (lit "1") w1)) = 500
      /\ todos (snd (delete_todo decimal_id e (lit "1") w1)) = []).
Proof.
  vm_compute. repeat split.
Qed.

(** * More of the server *)

(** ** What a request does to the table *)

(** A create that is not on the path of [post_todos_strings] is answered
    400 or 500, the same whatever the environment does, the world left as
    it was. *)
Lemma post_todos_off_path req_body w :
  (exists t d,
     get_prop "title" req_body = VStr t /\ trim t <> [] /\
     or_default (get_prop "description" req_body) (VStr []) = VStr d)
  \/ (forall e, post_todos e req_body w =
                (mkResponse 400 (error_json "Title is required"), w))
  \/ (forall e, post_todos e req_body w =
                (mkResponse 500 (error_json "Internal server error"), w)).
Proof.
  destruct (get_prop "title" req_body) as [| |b|n|t|ms|xs|ps] eqn:Ht.
  - right; left; intros e. apply post_todos_rejected. left. rewrite Ht. reflexivity.
  - right; left; intros e. apply post_todos_rejected. left. rewrite Ht. reflexivity.
  - destruct b.
    + right; right; intros e.
      unfold post_todos, catch_500, bind; rewrite Ht; reflexivity.
    + right; left; intros e. apply post_todos_rejected. left. rewrite Ht. reflexivity.
  - destruct (n =? 0) eqn:E.
    + right; left; intros e. apply post_todos_rejected. left.
      rewrite Ht. simpl. rewrite E. reflexivity.
    + right; right; intros e.
      unfold post_todos, catch_500, bind; rewrite Ht; simpl; rewrite E;
        reflexivity.
  - destruct (list_eq_dec N.eq_dec (trim t) []) as [Hnil | Hne].
    { right; left; intros e. apply post_todos_rejected. right. eauto. }
    destruct (or_default (get_prop "description" req_body) (VStr []))
      as [| |b|n|d|ms|xs|ps] eqn:Hd.
    5:{ left. exists t, d. auto. }
    all: right; right; intros e;
      apply post_todos_description_not_string with (t := t); auto;
      unfold or_default in Hd;
      destruct (get_prop "description" req_body); congruence.
  - right; right; intros e.
    unfold post_todos, catch_500, bind; rewrite Ht; reflexivity.
  - right; right; intros e.
    unfold post_todos, catch_500, bind; rewrite Ht; reflexivity.
  - right; right; intros e.
    unfold post_todos, catch_500, bind; rewrite Ht; reflexivity.
Qed.

Lemma get_todos_keeps_counter e w :
  auto_increment (snd (get_todos e w)) = auto_increment w.
Proof.
  rewrite get_todos_cases.
  destruct (redisClient w), (get_fails e), (cache w) as [[? ?]|],
    (db_fails e), (setEx_fails e); reflexivity.
Qed.

Section Table.

Variable where_id : jsstring -> Z -> bool.

(** The table and the counter after a request: untouched, or what the one
    statement of the request makes of them. *)
Lemma handle_table e q w :
  (todos (snd (handle where_id e q w)) = todos w
   /\ auto_increment (snd (handle where_id e q w)) = auto_increment w)
  \/ (db_fails e = false
      /\ match q with
         | ListTodos => False
         | CreateTodo b =>
             exists t d,
               todos (snd (handle where_id e q w)) =
                 todos w ++ [insert_row (trim t) (trim d) w]
               /\ auto_increment (snd (handle where_id e q w)) =
                    auto_increment w + 1
         | UpdateTodo k b =>
             todos (snd (handle where_id e q w)) =
               update_rows where_id (get_prop "title" b)
                           (get_prop "description" b) (get_prop "completed" b)
                           k (db_now w) (todos w)
             /\ auto_increment (snd (handle where_id e q w)) = auto_increment w
         | DeleteTodo k =>
             todos (snd (handle where_id e q w)) =
               delete_rows where_id k (todos w)
             /\ auto_increment (snd (handle where_id e q w)) = auto_increment w
         end).
Proof.
  destruct q as [|b|k b|k]; simpl.
  - left. split; [apply get_todos_keeps_table | apply get_todos_keeps_counter].
  - destruct (post_todos_off_path b w)
      as [(t & d & Ht & Hne & Hd) | [H | H]];
      [| left; rewrite H; auto | left; rewrite H; auto].
    rewrite (post_todos_strings e b w t d Ht Hne Hd).
    destruct (db_fails e); [left; auto|]. right. split; [reflexivity|].
    exists t, d. simpl.
    destruct (redisClient w); [destruct (del_fails e)|]; auto.
  - destruct (has_all_fields b) eqn:Hb;
      [|rewrite (put_todo_unbound where_id e k b w Hb); left; auto].
    rewrite (put_todo_cases where_id e k b w Hb).
    destruct (db_fails e); [left; auto|]. right. split; [reflexivity|]. simpl.
    destruct (Z.of_nat (length (matching where_id k (todos w))) =? 0);
      [auto|].
    destruct (redisClient w); [destruct (del_fails e)|]; auto.
  - rewrite delete_todo_cases.
    destruct (db_fails e); [left; auto|]. right. split; [reflexivity|]. simpl.
    destruct (Z.of_nat (length (matching where_id k (todos w))) =? 0);
      [auto|].
    destruct (redisClient w); [destruct (del_fails e)|]; auto.
Qed.

Lemma update_rows_ids t d c k now rows :
  map id (update_rows where_id t d c k now rows) = map id rows.
Proof.
  induction rows as [|r rows IH]; simpl; [reflexivity|].
  rewrite IH. destruct (where_id k (id r)); reflexivity.
Qed.

Lemma update_rows_created_at t d c k now rows :
  map created_at (update_rows where_id t d c k now rows) = map created_at rows.
Proof.
  induction rows as [|r rows IH]; simpl; [reflexivity|].
  rewrite IH. destruct (where_id k (id r)); reflexivity.
Qed.

Lemma delete_rows_NoDup k rows :
  NoDup (map id rows) -> NoDup (map id (delete_rows where_id k rows)).
Proof.
  induction rows as [|r rows IH]; simpl; intros H; [constructor|].
  inversion H as [|? ? Hnin Hnd]; subst.
  destruct (where_id k (id r)); simpl; [apply IH, Hnd|].
  constructor; [|apply IH, Hnd].
  intros Hin. apply Hnin.
  apply in_map_iff in Hin as (x & Hx & Hf).
  apply filter_In in Hf as [Hf _].
  apply in_map_iff. exists x. auto.
Qed.

(** What one call does to the table and the counter. *)
Lemma exec_table {X} (p : prim X) w :
  (todos (snd (exec where_id p w)) = todos w
   /\ auto_increment (snd (exec where_id p w)) = auto_increment w)
  \/ (exists t d,
        todos (snd (exec where_id p w)) = todos w ++ [insert_row t d w]
        /\ auto_increment (snd (exec where_id p w)) = auto_increment w + 1)
  \/ (exists t d c k,
        todos (snd (exec where_id p w)) =
          update_rows where_id t d c k (db_now w) (todos w)
        /\ auto_increment (snd (exec where_id p w)) = auto_increment w)
  \/ (exists k,
        todos (snd (exec where_id p w)) = delete_rows where_id k (todos w)
        /\ auto_increment (snd (exec where_id p w)) = auto_increment w).
Proof.
  destruct p; simpl.
  - left. unfold redis_get.
    destruct (redisClient w), (get_fails e); auto.
  - left. unfold db_select. destruct (db_fails e); auto.
  - left. unfold redis_setEx.
    destruct (redisClient w), (setEx_fails e); auto.
  - unfold db_insert. destruct (db_fails e); [left; auto|].
    right; left. exists t, d. auto.
  - unfold db_update.
    destruct (negb (bindable t && bindable d && bindable c)); [left; auto|].
    destruct (db_fails e); [left; auto|].
    right; right; left. exists t, d, c, key. auto.
  - unfold db_delete. destruct (db_fails e); [left; auto|].
    right; right; right. exists key. auto.
  - left. unfold redis_del.
    destruct (redisClient w), (del_fails e); auto.
Qed.

(** What one event does to the world: nothing, time passing, or one call
    of a request in flight. *)
Lemma step_world ev sv :
  sworld (step where_id ev sv) = sworld sv
  \/ (exists s, sworld (step where_id ev sv) = elapse s (sworld sv))
  \/ (exists X (p : prim X),
        sworld (step where_id ev sv) = snd (exec where_id p (sworld sv))).
Proof.
  destruct ev as [e q|n|s]; simpl.
  - destruct (advance (handle_task e q) (sworld sv)); auto.
  - destruct (take n (in_flight sv)) as [[t rest]|]; [|auto].
    destruct t as [r| |X p k|k]; simpl.
    + auto.
    + auto.
    + right; right. exists X, p.
      destruct (exec where_id p (sworld sv)) as [[x|] w']; simpl;
        [destruct (advance (k x) w')|]; reflexivity.
    + destruct (advance (k (VDate (clock (sworld sv)))) (sworld sv)); auto.
  - right; left. eauto.
Qed.

(** One event keeps the identifiers distinct and below the counter, does
    not lower the counter, and lets an identifier into the table only if
    it is the counter's value. *)
Lemma ids_fresh_step ev sv :
  ids_fresh (sworld sv) ->
  ids_fresh (sworld (step where_id ev sv))
  /\ auto_increment (sworld sv) <= auto_increment (sworld (step where_id ev sv))
  /\ (forall i,
        In i (map id (todos (sworld (step where_id ev sv)))) ->
        ~ In i (map id (todos (sworld sv))) ->
        auto_increment (sworld sv) <= i).
Proof.
  intros [Hnd Hlt].
  assert (Hsame : forall w',
            todos w' = todos (sworld sv) ->
            auto_increment w' = auto_increment (sworld sv) ->
            ids_fresh w'
            /\ auto_increment (sworld sv) <= auto_increment w'
            /\ (forall i, In i (map id (todos w')) ->
                          ~ In i (map id (todos (sworld sv))) ->
                          auto_increment (sworld sv) <= i)).
  { intros w' Ht Hc. unfold ids_fresh. rewrite Ht, Hc.
    repeat split; auto; [lia | intros i Hi Hn; contradiction]. }
  destruct (step_world ev sv) as [-> | [[s ->] | (X & p & ->)]].
  - apply Hsame; reflexivity.
  - apply Hsame; reflexivity.
  - destruct (exec_table p (sworld sv))
      as [[Ht Hc] | [(t & d & Ht & Hc) | [(t & d & c & k & Ht & Hc)
                                          | (k & Ht & Hc)]]].
    + apply Hsame; assumption.
    + unfold ids_fresh. rewrite Ht, Hc. repeat split; [| |lia|].
      * rewrite map_app. simpl.
        apply (Permutation_NoDup
                 (l := auto_increment (sworld sv) :: map id (todos (sworld sv)))).
        { apply Permutation_cons_append. }
        constructor; [|exact Hnd].
        intros Hin. apply in_map_iff in Hin as (x & Hx & Hin).
        rewrite Forall_forall in Hlt. specialize (Hlt x Hin). lia.
      * apply Forall_app. split.
        { eapply Forall_impl; [|exact Hlt]. simpl. intros; lia. }
        { constructor; [simpl; lia | constructor]. }
      * intros i Hi Hn. rewrite map_app in Hi.
        apply in_app_or in Hi as [Hi | [<- | []]]; [contradiction|].
        simpl. lia.
    + unfold ids_fresh. rewrite Ht, Hc, update_rows_ids.
      repeat split; auto; [| lia | intros i Hi Hn; contradiction].
      rewrite Forall_forall in *. intros x Hx.
      unfold update_rows in Hx. apply in_map_iff in Hx as (y & <- & Hy).
      specialize (Hlt y Hy). destruct (where_id k (id y)); exact Hlt.
    + unfold ids_fresh. rewrite Ht, Hc. repeat split; [| |lia|].
      * apply delete_rows_NoDup, Hnd.
      * rewrite Forall_forall in *. intros x Hx.
        apply filter_In in Hx as [Hx _]. auto.
      * intros i Hi Hn. exfalso. apply Hn.
        apply in_map_iff in Hi as (x & Hx & Hi).
        apply filter_In in Hi as [Hi _].
        apply in_map_iff. exists x. auto.
Qed.

Lemma ids_fresh_serve evs : forall sv,
  ids_fresh (sworld sv) ->
  ids_fresh (sworld (serve where_id evs sv))
  /\ auto_increment (sworld sv) <=
       auto_increment (sworld (serve where_id evs sv)).
Proof.
  induction evs as [|ev evs IH]; intros sv H.
  - split; [exact H | apply Z.le_refl].
  - change (serve where_id (ev :: evs) sv)
      with (serve where_id evs (step where_id ev sv)).
    destruct (ids_fresh_step ev sv H) as (H1 & H2 & _).
    destruct (IH _ H1) as [H3 H4]. split; [exact H3 | lia].
Qed.

(** X1. In any interleaving of requests, whatever arrives, whichever
    request goes on next, whatever fails and however much time passes,
    the rows keep distinct identifiers below the AUTO_INCREMENT counter,
    and an identifier that enters the table with an event was held by no
    row at any earlier moment: an identifier is never given twice, not
    even after its row was deleted. *)
Theorem identifiers_are_never_reused evs ev sv i :
  ids_fresh (sworld sv) ->
  ids_fresh (sworld (step where_id ev (serve where_id evs sv)))
  /\ (In i (map id (todos (sworld (step where_id ev (serve where_id evs sv))))) ->
      ~ In i (map id (todos (sworld (serve where_id evs sv)))) ->
      forall evs1 evs2,
        evs = evs1 ++ evs2 ->
        ~ In i (map id (todos (sworld (serve where_id evs1 sv))))).
Proof.
  intros H.
  destruct (ids_fresh_serve evs sv H) as [Hf _].
  destruct (ids_fresh_step ev _ Hf) as (H1 & _ & Hnew).
  split; [exact H1|].
  intros Hin Hnot evs1 evs2 ->.
  specialize (Hnew i Hin Hnot).
  destruct (ids_fresh_serve evs1 sv H) as [[_ Hlt1] _].
  rewrite serve_app in Hnew.
  destruct (ids_fresh_serve evs2 _ (proj1 (ids_fresh_serve evs1 sv H)))
    as [_ Hmono].
  intros Hi. apply in_map_iff in Hi as (x & Hx & Hi).
  rewrite Forall_forall in Hlt1. specialize (Hlt1 x Hi). lia.
Qed.

(** An answer in the 2xx range is the success status of its request. *)
Lemma answered_2xx e q w :
  200 <= status (fst (handle where_id e q w)) < 300 ->
  status (fst (handle where_id e q w)) = success_status q.
Proof.
  destruct q as [|b|k b|k]; cbn [handle success_status].
  - rewrite get_todos_cases.
    destruct (redisClient w), (get_fails e), (cache w) as [[? ?]|],
      (db_fails e), (setEx_fails e); simpl; lia.
  - destruct (post_todos_off_path b w)
      as [(t & d & Ht & Hne & Hd) | [H | H]];
      [| rewrite H; simpl; lia | rewrite H; simpl; lia].
    rewrite (post_todos_strings e b w t d Ht Hne Hd).
    destruct (db_fails e), (redisClient w), (del_fails e); simpl; lia.
  - destruct (has_all_fields b) eqn:Hb;
      [|rewrite (put_todo_unbound where_id e k b w Hb); simpl; lia].
    rewrite (put_todo_cases where_id e k b w Hb).
    destruct (db_fails e); [simpl; lia|]. cbv zeta.
    destruct (Z.of_nat (length (matching where_id k (todos w))) =? 0),
      (redisClient w), (del_fails e); simpl; lia.
  - rewrite delete_todo_cases.
    destruct (db_fails e); [simpl; lia|]. cbv zeta.
    destruct (Z.of_nat (length (matching where_id k (todos w))) =? 0),
      (redisClient w), (del_fails e); simpl; lia.
Qed.

(** X2. Each route answers with one of its own statuses only: the list
    with 200 or 500, a create with 201, 400 or 500, an update or a delete
    with 200, 404 or 500. *)
Theorem statuses_of_the_routes e q w :
  match q with
  | ListTodos =>
      status (fst (handle where_id e q w)) = 200
      \/ status (fst (handle where_id e q w)) = 500
  | CreateTodo _ =>
      status (fst (handle where_id e q w)) = 201
      \/ status (fst (handle where_id e q w)) = 400
      \/ status (fst (handle where_id e q w)) = 500
  | _ =>
      status (fst (handle where_id e q w)) = 200
      \/ status (fst (handle where_id e q w)) = 404
      \/ status (fst (handle where_id e q w)) = 500
  end.
Proof.
  destruct q as [|b|k b|k]; simpl.
  - rewrite get_todos_cases.
    destruct (redisClient w), (get_fails e), (cache w) as [[? ?]|],
      (db_fails e), (setEx_fails e); simpl; auto.
  - destruct (post_todos_off_path b w)
      as [(t & d & Ht & Hne & Hd) | [H | H]];
      [| rewrite H; simpl; auto | rewrite H; simpl; auto].
    rewrite (post_todos_strings e b w t d Ht Hne Hd).
    destruct (db_fails e), (redisClient w), (del_fails e); simpl; auto.
  - destruct (has_all_fields b) eqn:Hb;
      [|rewrite (put_todo_unbound where_id e k b w Hb); simpl; auto].
    rewrite (put_todo_cases where_id e k b w Hb).
    destruct (db_fails e); simpl; auto.
    destruct (Z.of_nat (length (matching where_id k (todos w))) =? 0),
      (redisClient w), (del_fails e); simpl; auto.
  - rewrite delete_todo_cases.
    destruct (db_fails e); simpl; auto.
    destruct (Z.of_nat (length (matching where_id k (todos w))) =? 0),
      (redisClient w), (del_fails e); simpl; auto.
Qed.

End Table.

Lemma identifiers_are_never_reused_witness :
  let evs := [Arrive all_well (CreateTodo [("title"%string, VStr (lit "a"))]);
              Resume 0;
              Arrive all_well (DeleteTodo (lit "1"));
              Arrive all_well (CreateTodo [("title"%string, VStr (lit "b"))]);
              Resume 0; Resume 1; Resume 0; Resume 1]%nat in
  let sv := idle (boot true 1700000000 1700000000123) in
  ids_fresh (sworld sv)
  /\ map id (todos (sworld (serve decimal_id (firstn 2 evs) sv))) = [1]
  /\ map id (todos (sworld (serve decimal_id evs sv))) = []
  /\ map id (todos (sworld (step decimal_id (Resume 2)
                              (serve decimal_id evs sv)))) = [2]
  /\ forall evs1 evs2,
       evs = evs1 ++ evs2 ->
       ~ In 2 (map id (todos (sworld (serve decimal_id evs1 sv)))).
Proof.
  cbv zeta.
  assert (Hf : ids_fresh (sworld (idle (boot true 1700000000 1700000000123))))
    by (split; constructor).
  split; [exact Hf|].
  split; [reflexivity|]. split; [reflexivity|]. split; [reflexivity|].
  apply (identifiers_are_never_reused decimal_id _ (Resume 2) _ 2 Hf).
  - left. reflexivity.
  - intros [].
Defined.

(** ** [trim], once more *)

Lemma trimStart_hd s c :
  hd_error (trimStart s) = Some c -> is_white_space c = false.
Proof.
  induction s as [|a s IH]; simpl; [discriminate|].
  destruct (is_white_space a) eqn:E; [exact IH|].
  simpl. intros [= <-]. exact E.
Qed.

Lemma trimStart_fixed s :
  (forall c, hd_error s = Some c -> is_white_space c = false) ->
  trimStart s = s.
Proof.
  destruct s as [|a s]; simpl; intros H; [reflexivity|].
  rewrite (H a eq_refl). reflexivity.
Qed.

Lemma trimStart_snoc l c :
  is_white_space c = false -> trimStart (l ++ [c]) = trimStart l ++ [c].
Proof.
  intros Hc. induction l as [|a l IH]; simpl.
  - rewrite Hc. reflexivity.
  - destruct (is_white_space a); [exact IH | reflexivity].
Qed.

Lemma trimEnd_hd y :
  (forall c, hd_error y = Some c -> is_white_space c = false) ->
  forall c, hd_error (trimEnd y) = Some c -> is_white_space c = false.
Proof.
  destruct y as [|a y]; intros H c; unfold trimEnd; simpl; [discriminate|].
  rewrite trimStart_snoc by (apply H; reflexivity).
  rewrite rev_app_distr. simpl. intros [= <-]. apply H. reflexivity.
Qed.

Lemma trim_hd s c : hd_error (trim s) = Some c -> is_white_space c = false.
Proof.
  unfold trim. apply trimEnd_hd. intros a. apply trimStart_hd.
Qed.

Lemma trim_last s c :
  hd_error (rev (trim s)) = Some c -> is_white_space c = false.
Proof.
  unfold trim, trimEnd. rewrite rev_involutive. apply trimStart_hd.
Qed.

Lemma trim_trim s : trim (trim s) = trim s.
Proof.
  unfold trim at 1.
  rewrite (trimStart_fixed (trim s)) by (intros c; apply trim_hd).
  unfold trimEnd.
  rewrite (trimStart_fixed (rev (trim s))) by (intros c; apply trim_last).
  apply rev_involutive.
Qed.

(** X3. The row a create inserts holds a title that is not empty and
    neither starts nor ends with white space, and a description that
    neither starts nor ends with white space: trimming them again changes
    nothing. *)
Theorem created_row_is_trimmed e req_body w :
  status (fst (post_todos e req_body w)) = 201 ->
  exists t d,
    todos (snd (post_todos e req_body w)) =
      todos w ++ [mkTodo (auto_increment w) (VStr t) (VStr d) (VBool false)
                         (db_now w) (db_now w)]
    /\ t <> []
    /\ trim t = t /\ trim d = d
    /\ (forall c, hd_error t = Some c -> is_white_space c = false)
    /\ (forall c, hd_error (rev t) = Some c -> is_white_space c = false)
    /\ (forall c, hd_error d = Some c -> is_white_space c = false)
    /\ (forall c, hd_error (rev d) = Some c -> is_white_space c = false).
Proof.
  intros H.
  destruct (post_todos_201_inv e req_body w H)
    as (t & d & Ht & Hne & Hd & Hdb & Hdel).
  exists (trim t), (trim d).
  rewrite (post_todos_strings e req_body w t d Ht Hne Hd), Hdb. simpl.
  split.
  { destruct (redisClient w); [rewrite Hdel by reflexivity|]; reflexivity. }
  split; [exact Hne|].
  repeat split; try apply trim_trim;
    intros c; first [apply trim_hd | apply trim_last].
Qed.

Lemma created_row_is_trimmed_witness :
  exists t d,
    todos (snd (post_todos all_well
                  [("title"%string, VStr (lit "  Buy milk "));
                   ("description"%string, VStr (lit " 2% "))]
                  (boot true 1700000000 1700000000123))) =
      [mkTodo 1 (VStr t) (VStr d) (VBool false) 1700000000 1700000000]
    /\ trim t = t /\ trim d = d.
Proof.
  destruct (created_row_is_trimmed all_well
              [("title"%string, VStr (lit "  Buy milk "));
               ("description"%string, VStr (lit " 2% "))]
              (boot true 1700000000 1700000000123) eq_refl)
    as (t & d & H1 & _ & H2 & H3 & _).
  exists t, d. auto.
Defined.

(** ** The store unreachable *)

Section Unreachable.

Variable where_id : jsstring -> Z -> bool.

(** X4. While [db.execute] rejects, no request changes the table, the
    counter or the cache entry, and none is answered 201; the only 200 is
    a list read served from the cache entry, and the only 400 a create. *)
Theorem rejected_statement_changes_nothing e q w :
  db_fails e = true ->
  todos (snd (handle where_id e q w)) = todos w
  /\ auto_increment (snd (handle where_id e q w)) = auto_increment w
  /\ cache (snd (handle where_id e q w)) = cache w
  /\ (status (fst (handle where_id e q w)) = 500
      \/ (status (fst (handle where_id e q w)) = 400
          /\ exists b, q = CreateTodo b)
      \/ (q = ListTodos /\ redisClient w = true
          /\ exists doc ttl, cache w = Some (doc, ttl)
                             /\ fst (handle where_id e q w) = mkResponse 200 doc)).
Proof.
  intros Hdb. destruct q as [|b|k b|k]; simpl.
  - rewrite get_todos_cases, Hdb.
    destruct (redisClient w) eqn:Hc; [|simpl; auto].
    destruct (get_fails e); [simpl; auto|].
    destruct (cache w) as [[doc ttl]|] eqn:Hv; simpl; [|auto].
    repeat split; auto. right; right. repeat split; auto.
    exists doc, ttl. auto.
  - destruct (post_todos_off_path b w)
      as [(t & d & Ht & Hne & Hd) | [H | H]].
    + rewrite (post_todos_strings e b w t d Ht Hne Hd), Hdb. simpl. auto.
    + rewrite H. simpl. repeat split; auto. right; left. split; eauto.
    + rewrite H. simpl. auto.
  - destruct (has_all_fields b) eqn:Hb;
      [|rewrite (put_todo_unbound where_id e k b w Hb); simpl; auto].
    rewrite (put_todo_cases where_id e k b w Hb), Hdb. simpl. auto.
  - rewrite delete_todo_cases, Hdb. simpl. auto.
Qed.

(** The rows matched by a key stay away once they are gone, as long as
    every identifier the key matches lies below the counter. *)
Lemma step_keeps_deleted k c ev sv :
  (forall i, where_id k i = true -> i < c) ->
  c <= auto_increment (sworld sv) ->
  (forall r, In r (todos (sworld sv)) -> where_id k (id r) = false) ->
  c <= auto_increment (sworld (step where_id ev sv))
  /\ (forall r, In r (todos (sworld (step where_id ev sv))) ->
                where_id k (id r) = false).
Proof.
  intros Hk Hc Hnone.
  destruct (step_world where_id ev sv) as [-> | [[s ->] | (X & p & ->)]];
    [auto | auto |].
  destruct (exec_table where_id p (sworld sv))
    as [[Ht Hn] | [(t & d & Ht & Hn) | [(t & d & c' & k' & Ht & Hn)
                                        | (k' & Ht & Hn)]]];
    rewrite Ht, Hn.
  - auto.
  - split; [lia|]. intros r Hr.
    apply in_app_or in Hr as [Hr | [<- | []]]; [auto|]. simpl.
    destruct (where_id k (auto_increment (sworld sv))) eqn:Hw; [|reflexivity].
    apply Hk in Hw. lia.
  - split; [exact Hc|]. intros r Hr.
    unfold update_rows in Hr. apply in_map_iff in Hr as (y & <- & Hy).
    specialize (Hnone y Hy). destruct (where_id k' (id y)); exact Hnone.
  - split; [exact Hc|]. intros r Hr.
    apply filter_In in Hr as [Hr _]. auto.
Qed.

Lemma serve_keeps_deleted k c evs : forall sv,
  (forall i, where_id k i = true -> i < c) ->
  c <= auto_increment (sworld sv) ->
  (forall r, In r (todos (sworld sv)) -> where_id k (id r) = false) ->
  forall r, In r (todos (sworld (serve where_id evs sv))) ->
            where_id k (id r) = false.
Proof.
  induction evs as [|ev evs IH]; intros sv Hk Hc Hnone; [exact Hnone|].
  change (serve where_id (ev :: evs) sv)
    with (serve where_id evs (step where_id ev sv)).
  destruct (step_keeps_deleted k c ev sv Hk Hc Hnone) as [Hc' Hnone'].
  apply IH; assumption.
Qed.

(** X5. Once the DELETE statement for an identifier that was already
    handed out has been executed, no row matches the identifier ever
    again, whatever requests arrive, interleave or fail afterwards and
    whatever rows are created: an update (with its three fields) or
    another delete for it, when executed, is answered 404. *)
Theorem deleted_stays_deleted e k w pool ans n evs e2 b :
  db_fails e = false ->
  (forall i, where_id k i = true -> i < auto_increment w) ->
  (forall r,
     In r (todos (sworld (serve where_id evs
                            (mkServer (snd (db_delete where_id e k w))
                                      pool ans n)))) ->
     where_id k (id r) = false)
  /\ (db_fails e2 = false ->
      status (fst (delete_todo where_id e2 k
                     (sworld (serve where_id evs
                                (mkServer (snd (db_delete where_id e k w))
                                          pool ans n))))) = 404
      /\ (has_all_fields b = true ->
          status (fst (put_todo where_id e2 k b
                         (sworld (serve where_id evs
                                    (mkServer (snd (db_delete where_id e k w))
                                              pool ans n))))) = 404)).
Proof.
  intros Hdb Hk.
  assert (Hnone : forall r,
             In r (todos (sworld (serve where_id evs
                                    (mkServer (snd (db_delete where_id e k w))
                                              pool ans n)))) ->
             where_id k (id r) = false).
  { apply (serve_keeps_deleted k (auto_increment w)); [exact Hk | |];
      unfold db_delete; rewrite Hdb; simpl; [apply Z.le_refl|].
    intros r Hr. apply filter_In in Hr as [_ Hr].
    apply negb_true_iff in Hr. exact Hr. }
  split; [exact Hnone|]. intros Hdb2.
  split.
  - rewrite delete_todo_cases, Hdb2. simpl.
    rewrite (proj2 (affected_zero where_id k _) Hnone). reflexivity.
  - intros Hb. rewrite (put_todo_cases where_id e2 k b _ Hb), Hdb2. simpl.
    rewrite (proj2 (affected_zero where_id k _) Hnone). reflexivity.
Qed.

(** X6. An update never adds or removes a row and never changes an
    identifier or a creation time, whatever its body and whatever fails. *)
Theorem update_keeps_ids_and_creation_times e k b w :
  map id (todos (snd (put_todo where_id e k b w))) = map id (todos w)
  /\ map created_at (todos (snd (put_todo where_id e k b w))) =
       map created_at (todos w)
  /\ length (todos (snd (put_todo where_id e k b w))) = length (todos w)
  /\ auto_increment (snd (put_todo where_id e k b w)) = auto_increment w.
Proof.
  assert (H : todos (snd (put_todo where_id e k b w)) = todos w
              \/ todos (snd (put_todo where_id e k b w)) =
                   update_rows where_id (get_prop "title" b)
                               (get_prop "description" b)
                               (get_prop "completed" b) k (db_now w) (todos w)).
  { destruct (has_all_fields b) eqn:Hb;
      [|rewrite (put_todo_unbound where_id e k b w Hb); left; reflexivity].
    rewrite (put_todo_cases where_id e k b w Hb).
    destruct (db_fails e); [left; reflexivity|].
    right. simpl.
    destruct (Z.of_nat (length (matching where_id k (todos w))) =? 0);
      [reflexivity|].
    destruct (redisClient w); [destruct (del_fails e)|]; reflexivity. }
  assert (Hc : auto_increment (snd (put_todo where_id e k b w)) = auto_increment w).
  { destruct (has_all_fields b) eqn:Hb;
      [|rewrite (put_todo_unbound where_id e k b w Hb); reflexivity].
    rewrite (put_todo_cases where_id e k b w Hb).
    destruct (db_fails e); [reflexivity|]. simpl.
    destruct (Z.of_nat (length (matching where_id k (todos w))) =? 0);
      [reflexivity|].
    destruct (redisClient w); [destruct (del_fails e)|]; reflexivity. }
  destruct H as [-> | ->].
  - auto.
  - rewrite update_rows_ids, update_rows_created_at.
    unfold update_rows. rewrite length_map. auto.
Qed.

End Unreachable.

Lemma rejected_statement_changes_nothing_witness :
  let w := snd (get_todos all_well (boot true 1700000000 1700000000123)) in
  let e := mkEnv true false false false in
  todos (snd (handle decimal_id e
                (CreateTodo [("title"%string, VStr (lit "a"))]) w)) = []
  /\ fst (handle decimal_id e ListTodos w) = mkResponse 200 (VArr []).
Proof.
  cbv zeta. split.
  - exact (proj1 (rejected_statement_changes_nothing decimal_id
                    (mkEnv true false false false)
                    (CreateTodo [("title"%string, VStr (lit "a"))])
                    (snd (get_todos all_well
                            (boot true 1700000000 1700000000123)))
                    eq_refl)).
  - reflexivity.
Defined.

Lemma decimal_id_one i : decimal_id (lit "1") i = true -> i < 2.
Proof.
  change (decimal_id (lit "1") i) with (1 =? i).
  intros H. apply Z.eqb_eq in H. lia.
Qed.

Lemma deleted_stays_deleted_witness :
  let w := snd (post_todos all_well [("title"%string, VStr (lit "a"))]
                           (boot true 1700000000 1700000000123)) in
  let evs := [Arrive all_well (CreateTodo [("title"%string, VStr (lit "b"))]);
              Resume 1; Resume 0; Resume 1; Tick 3]%nat in
  let sv := serve decimal_id evs
                  (mkServer (snd (db_delete decimal_id all_well (lit "1") w))
                            [(0%nat, then_ (await (AwaitDel all_well))
                                           (fun _ => Done (mkResponse 200
                                                (message_json "Todo deleted successfully"))))]
                            [] 1) in
  map id (todos w) = [1]
  /\ map id (todos (sworld sv)) = [2]
  /\ status (fst (delete_todo decimal_id all_well (lit "1") (sworld sv))) = 404.
Proof.
  cbv zeta. split; [reflexivity|]. split; [reflexivity|].
  exact (proj1 (proj2 (deleted_stays_deleted decimal_id all_well (lit "1")
                         (snd (post_todos all_well
                                 [("title"%string, VStr (lit "a"))]
                                 (boot true 1700000000 1700000000123)))
                         _ [] 1%nat
                         [Arrive all_well
                                 (CreateTodo [("title"%string, VStr (lit "b"))]);
                          Resume 1; Resume 0; Resume 1; Tick 3]%nat
                         all_well [] eq_refl decimal_id_one) eq_refl)).
Defined.

(** ** The lifetime of the cache entry *)

Lemma elapse_cache_some s w v ttl :
  cache w = Some (v, ttl) ->
  cache (elapse s w) = if ttl - s <=? 0 then None else Some (v, ttl - s).
Proof. unfold elapse. cbn [cache]. intros ->. reflexivity. Qed.

(** X7. The entry a list read writes on a miss is served for the next 300
    seconds: a read less than 300 s later is answered from it with no call
    to the store (so also while the store is unreachable), and being
    served does not prolong it; from 300 s on the read queries the store
    again. *)
Theorem cache_entry_lives_300_seconds e s s2 w :
  redisClient w = true ->
  cache w = None ->
  get_fails e = false ->
  (s < 300 ->
   get_todos e (elapse s (snd (get_todos all_well w))) =
     (mkResponse 200 (snapshot w),
      log RedisGet (elapse s (snd (get_todos all_well w))))
   /\ (300 <= s + s2 ->
       cache (elapse s2 (snd (get_todos e
                                (elapse s (snd (get_todos all_well w)))))) =
         None))
  /\ (300 <= s -> db_fails e = false -> setEx_fails e = false ->
      fst (get_todos e (elapse s (snd (get_todos all_well w)))) =
        mkResponse 200 (snapshot w)
      /\ calls (snd (get_todos e (elapse s (snd (get_todos all_well w))))) =
           RedisSetEx 300 (snapshot w) :: SqlSelect :: RedisGet
           :: calls (snd (get_todos all_well w))).
Proof.
  intros Hc Hnone Hget.
  assert (Hw1 : snd (get_todos all_well w) =
                set_cache (Some (snapshot w, 300))
                  (log (RedisSetEx 300 (snapshot w))
                       (log SqlSelect (log RedisGet w)))).
  { rewrite get_todos_cases, Hc, Hnone. reflexivity. }
  rewrite Hw1.
  set (w1 := set_cache (Some (snapshot w, 300))
               (log (RedisSetEx 300 (snapshot w))
                    (log SqlSelect (log RedisGet w)))).
  assert (Hv1 : cache w1 = Some (snapshot w, 300)) by reflexivity.
  assert (Hc1 : redisClient (elapse s w1) = true) by exact Hc.
  assert (Hs1 : snapshot (elapse s w1) = snapshot w) by reflexivity.
  rewrite get_todos_cases, Hc1, Hget, Hs1, (elapse_cache_some s w1 _ _ Hv1).
  split.
  - intros Hs.
    destruct (300 - s <=? 0) eqn:E; [apply Z.leb_le in E; lia|].
    split; [reflexivity|].
    intros Hs2.
    assert (Hv2 : cache (log RedisGet (elapse s w1)) =
                  Some (snapshot w, 300 - s)).
    { change (cache (elapse s w1) = Some (snapshot w, 300 - s)).
      rewrite (elapse_cache_some s w1 _ _ Hv1), E. reflexivity. }
    cbn [snd]. rewrite (elapse_cache_some s2 _ _ _ Hv2).
    destruct (300 - s - s2 <=? 0) eqn:E2; [reflexivity|].
    apply Z.leb_gt in E2. lia.
  - intros Hs Hdb Hset. rewrite Hdb, Hset.
    destruct (300 - s <=? 0) eqn:E; [|apply Z.leb_gt in E; lia].
    split; reflexivity.
Qed.

Lemma cache_entry_lives_300_seconds_witness :
  let w := boot true 1700000000 1700000000123 in
  let w1 := snd (get_todos all_well w) in
  calls (snd (get_todos (mkEnv true false false false) (elapse 299 w1))) =
    RedisGet :: calls w1
  /\ calls (snd (get_todos all_well (elapse 300 w1))) =
       RedisSetEx 300 (VArr []) :: SqlSelect :: RedisGet :: calls w1.
Proof.
  cbv zeta. split.
  - rewrite (proj1 (proj1 (cache_entry_lives_300_seconds
                             (mkEnv true false false false) 299 0
                             (boot true 1700000000 1700000000123)
                             eq_refl eq_refl eq_refl) eq_refl)).
    reflexivity.
  - exact (proj2 (proj2 (cache_entry_lives_300_seconds
                           all_well 300 0
                           (boot true 1700000000 1700000000123)
                           eq_refl eq_refl eq_refl)
                        ltac:(discriminate) eq_refl eq_refl)).
Defined.

(** ** Create, then list *)

Section CreateThenList.

Variable where_id : jsstring -> Z -> bool.

(** X8. A create and then a list read, each served alone, the read
    however long after and with nothing failing: when the create is
    answered 201 with identifier [i], the read is answered 200 with a list
    that carries the row [i] with the normalized title and description of
    the create's answer and completed 0, the number the driver gives for
    the BOOLEAN column, and no other row with that identifier; the list is
    one row longer than the table was. *)
Theorem created_row_is_listed e req_body w s ans n :
  ids_fresh w ->
  status (fst (post_todos e req_body w)) = 201 ->
  exists i t d rows,
    in_flight (serve where_id (alone n e (CreateTodo req_body)
                               ++ Tick s :: alone (S n) all_well ListTodos)
                     (mkServer w [] ans n)) = []
    /\ answers (serve where_id (alone n e (CreateTodo req_body)
                               ++ Tick s :: alone (S n) all_well ListTodos)
                      (mkServer w [] ans n)) =
         (S n, mkResponse 200 (VArr (map row_json rows)))
         :: (n, mkResponse 201 (created_json i t d (clock w))) :: ans
    /\ In (VObj [("id", VNum i);
                 ("title", VStr t);
                 ("description", VStr d);
                 ("completed", VNum 0);
                 ("created_at", VDate (1000 * db_now w));
                 ("updated_at", VDate (1000 * db_now w))]%string)
          (map row_json rows)
    /\ (forall r, In r rows -> id r = i ->
          row_json r =
            VObj [("id", VNum i);
                  ("title", VStr t);
                  ("description", VStr d);
                  ("completed", VNum 0);
                  ("created_at", VDate (1000 * db_now w));
                  ("updated_at", VDate (1000 * db_now w))]%string)
    /\ length rows = S (length (todos w)).
Proof.
  intros [_ Hlt] H.
  destruct (post_todos_201_inv e req_body w H)
    as (t & d & Ht & Hne & Hd & Hdb & Hdel).
  pose proof (post_todos_strings e req_body w t d Ht Hne Hd) as Hp.
  rewrite Hdb in Hp. simpl in Hp.
  set (w1 := snd (post_todos e req_body w)).
  assert (Htab : todos w1 = todos w ++ [insert_row (trim t) (trim d) w]).
  { unfold w1. rewrite Hp.
    destruct (redisClient w); [rewrite Hdel by reflexivity|]; reflexivity. }
  assert (Hkey : redisClient w1 = true -> cache w1 = None).
  { unfold w1. rewrite Hp.
    destruct (redisClient w) eqn:Hc; [rewrite Hdel by reflexivity|];
      simpl; [reflexivity | congruence]. }
  assert (Hans : fst (post_todos e req_body w) =
                 mkResponse 201 (created_json (auto_increment w) (trim t)
                                              (trim d) (clock w))).
  { rewrite Hp.
    destruct (redisClient w); [rewrite Hdel by reflexivity|]; reflexivity. }
  assert (Hread : fst (get_todos all_well (elapse s w1)) =
                  mkResponse 200
                    (rows_json (order_by_created_at_desc (todos w1)))).
  { destruct (get_todos_after_invalidation all_well s w1 Hkey) as [H200 Hok].
    exact (proj1 (H200 (Hok eq_refl eq_refl eq_refl))). }
  assert (Hserve :
            serve where_id (alone n e (CreateTodo req_body)
                            ++ Tick s :: alone (S n) all_well ListTodos)
                  (mkServer w [] ans n) =
              mkServer (snd (get_todos all_well (elapse s w1))) []
                       ((S n, fst (get_todos all_well (elapse s w1)))
                        :: (n, fst (post_todos e req_body w)) :: ans)
                       (S (S n))).
  { rewrite serve_app, served_alone.
    change (Tick s :: alone (S n) all_well ListTodos)
      with ([Tick s] ++ alone (S n) all_well ListTodos).
    rewrite serve_app.
    change (serve where_id [Tick s]
              (mkServer (snd (handle where_id e (CreateTodo req_body) w)) []
                        ((n, fst (handle where_id e (CreateTodo req_body) w))
                         :: ans) (S n)))
      with (mkServer (elapse s w1) []
                     ((n, fst (post_todos e req_body w)) :: ans) (S n)).
    rewrite served_alone. reflexivity. }
  exists (auto_increment w), (trim t), (trim d),
         (order_by_created_at_desc (todos w1)).
  pose proof (order_by_created_at_desc_perm (todos w1)) as Hperm.
  rewrite Hserve, Hread, Hans.
  split; [reflexivity|]. split; [reflexivity|].
  split; [|split].
  - apply in_map_iff.
    exists (insert_row (trim t) (trim d) w). split; [reflexivity|].
    apply (Permutation_in _ Hperm). rewrite Htab.
    apply in_or_app. right. left. reflexivity.
  - intros r Hr Hid.
    apply (Permutation_in _ (Permutation_sym Hperm)) in Hr.
    rewrite Htab in Hr. apply in_app_or in Hr as [Hr | [<- | []]].
    + rewrite Forall_forall in Hlt. specialize (Hlt r Hr). lia.
    + reflexivity.
  - rewrite <- (Permutation_length Hperm), Htab, length_app. simpl. lia.
Qed.

End CreateThenList.

Lemma created_row_is_listed_witness :
  let w := snd (post_todos all_well [("title"%string, VStr (lit "a"))]
                           (boot true 1700000000 1700000000123)) in
  exists rows,
    answers (serve decimal_id
               (alone 1 all_well
                      (CreateTodo [("title"%string, VStr (lit " b "))])
                ++ Tick 7 :: alone 2 all_well ListTodos)
               (mkServer w [] [] 1)) =
      [(2%nat, mkResponse 200 (VArr (map row_json rows)));
       (1%nat, mkResponse 201 (created_json 2 (lit "b") [] 1700000000123))]
    /\ In (VObj [("id", VNum 2);
                 ("title", VStr (lit "b"));
                 ("description", VStr []);
                 ("completed", VNum 0);
                 ("created_at", VDate 1700000000000);
                 ("updated_at", VDate 1700000000000)]%string)
          (map row_json rows).
Proof.
  cbv zeta.
  destruct (created_row_is_listed decimal_id all_well
              [("title"%string, VStr (lit " b "))]
              (snd (post_todos all_well [("title"%string, VStr (lit "a"))]
                               (boot true 1700000000 1700000000123)))
              7 [] 1%nat)
    as (i & t & d & rows & _ & Ha & Hin & _).
  - split.
    + repeat constructor. simpl. tauto.
    + repeat constructor.
  - reflexivity.
  - exists rows.
    assert (Hi : i = 2 /\ t = lit "b" /\ d = []).
    { revert Ha. vm_compute. intros [= _ <- <- <-]. auto. }
    destruct Hi as (-> & -> & ->).
    split; [exact Ha | exact Hin].
Defined.

(** ** The served list is the current one *)

Section Current.

Variable where_id : jsstring -> Z -> bool.

(** Requests served one at a time leave none in flight and are numbered
    in their order. *)
Lemma one_at_a_time_shape steps : forall w ans n,
  in_flight (serve where_id (one_at_a_time n steps) (mkServer w [] ans n)) = []
  /\ arrived (serve where_id (one_at_a_time n steps) (mkServer w [] ans n)) =
       (length steps + n)%nat.
Proof.
  induction steps as [|[[s e] q] steps IH]; intros w ans n.
  - split; reflexivity.
  - cbn [one_at_a_time].
    change (Tick s :: alone n e q ++ one_at_a_time (S n) steps)
      with ([Tick s] ++ alone n e q ++ one_at_a_time (S n) steps).
    rewrite !serve_app.
    change (serve where_id [Tick s] (mkServer w [] ans n))
      with (mkServer (elapse s w) [] ans n).
    rewrite served_alone.
    destruct (IH (snd (handle where_id e q (elapse s w)))
                 ((n, fst (handle where_id e q (elapse s w))) :: ans) (S n))
      as [H1 H2].
    split; [exact H1|]. rewrite H2. simpl. lia.
Qed.

(** X10. From a world whose cache entry, if any, is the current list,
    through any requests served one at a time, none arriving while
    another is in flight, and any lapse of time, whatever else fails, as
    long as no DEL of the cache key has rejected: a list read served next
    with nothing failing is answered 200 with exactly the rows the table
    holds then, newest first, be it from the cache or from the store. *)
Theorem served_list_is_current steps s w ans n :
  coherent w ->
  Forall (fun step => del_fails (snd (fst step)) = false) steps ->
  serve where_id
        (one_at_a_time n steps
         ++ Tick s :: alone (length steps + n) all_well ListTodos)
        (mkServer w [] ans n) =
    mkServer
      (snd (get_todos all_well
              (elapse s (sworld (serve where_id (one_at_a_time n steps)
                                       (mkServer w [] ans n))))))
      []
      ((length steps + n,
        mkResponse 200
          (rows_json
             (order_by_created_at_desc
                (todos (sworld (serve where_id (one_at_a_time n steps)
                                      (mkServer w [] ans n)))))))%nat
       :: answers (serve where_id (one_at_a_time n steps)
                         (mkServer w [] ans n)))
      (S (length steps + n)).
Proof.
  intros H Hall.
  destruct (coherent_one_at_a_time where_id steps w ans n H Hall) as [_ Hco].
  destruct (one_at_a_time_shape steps w ans n) as [Hin Harr].
  rewrite serve_app.
  destruct (serve where_id (one_at_a_time n steps) (mkServer w [] ans n))
    as [w' pool ans' m].
  simpl in Hco, Hin, Harr. subst pool m.
  change (Tick s :: alone (length steps + n) all_well ListTodos)
    with ([Tick s] ++ alone (length steps + n) all_well ListTodos).
  rewrite serve_app.
  change (serve where_id [Tick s] (mkServer w' [] ans' (length steps + n)))
    with (mkServer (elapse s w') [] ans' (length steps + n)).
  rewrite served_alone.
  change (handle where_id all_well ListTodos (elapse s w'))
    with (get_todos all_well (elapse s w')).
  rewrite (get_todos_coherent (elapse s w') (coherent_elapse s w' Hco)).
  reflexivity.
Qed.

End Current.

Lemma served_list_is_current_witness :
  let steps :=
    [(0, all_well, ListTodos);
     (2, mkEnv false false true false,
      CreateTodo [("title"%string, VStr (lit "a"))]);
     (1, mkEnv false true false false, ListTodos);
     (1, all_well, ListTodos);
     (3, all_well,
      UpdateTodo (lit "1") [("title"%string, VStr (lit "b"));
                            ("description"%string, VStr []);
                            ("completed"%string, VBool true)])] in
  let w := boot true 1700000000 1700000000123 in
  hd_error (answers (serve decimal_id
                       (one_at_a_time 0 steps
                        ++ Tick 0 :: alone 5 all_well ListTodos)
                       (idle w))) =
    Some (5%nat,
          mkResponse 200
            (VArr [VObj [("id", VNum 1);
                         ("title", VStr (lit "b"));
                         ("description", VStr []);
                         ("completed", VNum 1);
                         ("created_at", VDate 1700000002000);
                         ("updated_at", VDate 1700000007000)]%string])).
Proof.
  cbv zeta.
  exact (f_equal (fun sv => hd_error (answers sv))
           (served_list_is_current decimal_id
              [(0, all_well, ListTodos);
               (2, mkEnv false false true false,
                CreateTodo [("title"%string, VStr (lit "a"))]);
               (1, mkEnv false true false false, ListTodos);
               (1, all_well, ListTodos);
               (3, all_well,
                UpdateTodo (lit "1") [("title"%string, VStr (lit "b"));
                                      ("description"%string, VStr []);
                                      ("completed"%string, VBool true)])]
              0 (boot true 1700000000 1700000000123) [] 0%nat
              (coherent_boot true 1700000000 1700000000123)
              ltac:(repeat constructor))).
Defined.

(** * The client over the server *)

Lemma api_delivered srv w :
  App.api App.Delivered srv w =
    (if (200 <=? status (fst (srv w))) && (status (fst (srv w)) <? 300)
     then Some (fst (srv w)) else None,
     snd (srv w)).
Proof. unfold App.api. destruct (srv w). reflexivity. Qed.

(** An axios call is fulfilled only by an answer that came through with
    a status from 200 to 299. *)
Lemma api_fulfilled tr srv w r :
  fst (App.api tr srv w) = Some r ->
  tr = App.Delivered /\ r = fst (srv w) /\ 200 <= status r < 300.
Proof.
  destruct tr; [|discriminate|discriminate].
  rewrite api_delivered. simpl.
  destruct ((200 <=? status (fst (srv w))) && (status (fst (srv w)) <? 300))
    eqn:E; [|discriminate].
  intros [= <-]. apply andb_true_iff in E as [E1 E2].
  apply Z.leb_le in E1. apply Z.ltb_lt in E2. auto.
Qed.

Lemma get_prop_set_prop k v o : get_prop k (set_prop k v o) = v.
Proof.
  induction o as [|[k' v'] o IH]; simpl.
  - rewrite String.eqb_refl. reflexivity.
  - destruct (String.eqb k k') eqn:E; simpl.
    + rewrite String.eqb_refl. reflexivity.
    + rewrite E. exact IH.
Qed.

Lemma get_prop_set_prop_other k k' v o :
  k' <> k -> get_prop k' (set_prop k v o) = get_prop k' o.
Proof.
  intros Hne. induction o as [|[k0 v0] o IH]; simpl.
  - destruct (String.eqb k' k) eqn:E; [|reflexivity].
    apply String.eqb_eq in E. contradiction.
  - destruct (String.eqb k k0) eqn:E; simpl.
    + apply String.eqb_eq in E. subst k0.
      destruct (String.eqb k' k) eqn:E'; [|reflexivity].
      apply String.eqb_eq in E'. contradiction.
    + destruct (String.eqb k' k0); [reflexivity | exact IH].
Qed.

(** [filter] keeps the elements whose [id] is not the number, in order. *)
Lemma filter_out_spec n xs ys :
  App.filter_out n xs = Some ys ->
  ys = filter (fun x => match App.has_id n x with
                        | Some true => false
                        | _ => true
                        end) xs
  /\ Forall (fun x => App.has_id n x = Some false) ys.
Proof.
  revert ys. induction xs as [|a xs IH]; simpl; intros ys.
  - intros [= <-]. split; [reflexivity | constructor].
  - destruct (App.has_id n a) as [b|] eqn:E; [|discriminate].
    destruct (App.filter_out n xs) as [zs|]; [|discriminate].
    destruct (IH zs eq_refl) as [Hz Hall].
    intros [= <-]. destruct b.
    + split; assumption.
    + split; [rewrite Hz; reflexivity | constructor; assumption].
Qed.

Section ClientProperties.

Variable where_id : jsstring -> Z -> bool.

(** X11. The form with a title that is empty or white space only sends no
    request: the server's world is what it was, the list and the form are
    kept, and the notification asks for a title. *)
Theorem blank_title_sends_nothing tr e st w :
  forallb is_white_space (fst (App.newTodo st)) = true ->
  App.addTodo tr e st w = (App.notify App.TitleRequired st, w).
Proof.
  intros H. unfold App.addTodo.
  destruct (App.newTodo st) as [t d]. simpl in H.
  rewrite (trim_white t H). reflexivity.
Qed.

(** X12. A form submitted with a title that is not blank is never
    answered 400 by the server: the answer is 201 or 500.  When the
    request and the answer get through and neither the insert nor the
    invalidation fails, the row is inserted, the object of the 201 is put
    at the head of the client's list, the form is emptied and the
    notification says the todo was added. *)
Theorem form_submission_creates tr e st w t d items :
  App.newTodo st = (t, d) ->
  trim t <> [] ->
  (status (fst (post_todos e [("title", VStr t); ("description", VStr d)]%string w)) = 201
   \/ status (fst (post_todos e [("title", VStr t); ("description", VStr d)]%string w)) = 500)
  /\ (tr = App.Delivered ->
      db_fails e = false ->
      (redisClient w = true -> del_fails e = false) ->
      App.todos st = VArr items ->
      fst (App.addTodo tr e st w) =
        App.notify App.Added
          (App.setNewTodo ([], [])
             (App.setTodos
                (VArr (created_json (auto_increment w) (trim t) (trim d)
                                    (clock w) :: items))
                st))
      /\ todos (snd (App.addTodo tr e st w)) =
           todos w ++ [mkTodo (auto_increment w) (VStr (trim t))
                              (VStr (trim d)) (VBool false)
                              (db_now w) (db_now w)]).
Proof.
  intros Hn Hne.
  pose proof (post_todos_strings e
                [("title", VStr t); ("description", VStr d)]%string
                w t d eq_refl Hne eq_refl) as Hp.
  split.
  - rewrite Hp.
    destruct (db_fails e), (redisClient w), (del_fails e); simpl; auto.
  - intros -> Hdb Hdel Hitems.
    unfold App.addTodo. rewrite Hn.
    destruct (Nat.eqb (length (trim t)) 0) eqn:E.
    { apply length_eqb_0 in E. contradiction. }
    rewrite api_delivered, Hp, Hdb. simpl.
    destruct (redisClient w); [rewrite Hdel by reflexivity|]; simpl;
      rewrite Hitems; simpl; split; reflexivity.
Qed.

(** X13. The client's list changes only on an answer that came through
    with the success status of the request the client sent: 201 for the
    POST of the form's title and description, 200 for the PUT of the
    client's copy of the item with its flag flipped, 200 for the DELETE.
    When adding, toggling or deleting is not answered so, the list is
    exactly what it was, whatever the server did meanwhile. *)
Theorem list_changes_only_on_success tr e n c confirmed st w :
  (App.todos (fst (App.addTodo tr e st w)) <> App.todos st ->
   tr = App.Delivered
   /\ status (fst (post_todos e [("title", VStr (fst (App.newTodo st)));
                                 ("description", VStr (snd (App.newTodo st)))]%string
                              w)) = 201)
  /\ (App.todos (fst (App.toggleTodo where_id tr e n c st w)) <> App.todos st ->
      tr = App.Delivered
      /\ exists todo,
           option_map (App.find_id n) (App.elements (App.todos st)) =
             Some (Some todo)
           /\ status (fst (put_todo where_id e (to_key n)
                             (set_prop "completed" (VBool (negb (truthy c)))
                                       (App.spread todo))
                             w)) = 200)
  /\ (App.todos (fst (App.deleteTodo where_id confirmed tr e n st w)) <> App.todos st ->
      confirmed = true /\ tr = App.Delivered
      /\ status (fst (delete_todo where_id e (to_key n) w)) = 200).
Proof.
  split; [|split].
  - unfold App.addTodo. destruct (App.newTodo st) as [t d]. simpl.
    destruct (Nat.eqb (length (trim t)) 0); [simpl; congruence|].
    destruct (App.api tr (post_todos e [("title", VStr t); ("description", VStr d)]%string) w)
      as [[r|] w'] eqn:Ha; [|simpl; congruence].
    intros _.
    destruct (api_fulfilled tr
                (post_todos e [("title", VStr t); ("description", VStr d)]%string)
                w r) as (Htr & Hr & Hs).
    { rewrite Ha. reflexivity. }
    split; [exact Htr|]. subst r.
    exact (answered_2xx where_id e
             (CreateTodo [("title", VStr t); ("description", VStr d)]%string)
             w Hs).
  - unfold App.toggleTodo.
    destruct (option_map (App.find_id n) (App.elements (App.todos st)))
      as [[todo|]|] eqn:Hf; [|simpl; congruence|simpl; congruence].
    match goal with
    | |- context [App.api tr ?srv w] =>
        destruct (App.api tr srv w) as [[r|] w'] eqn:Ha
    end; [|simpl; congruence].
    intros _.
    match type of Ha with
    | App.api tr ?srv w = _ =>
        destruct (api_fulfilled tr srv w r) as (Htr & Hr & Hs);
          [rewrite Ha; reflexivity|]
    end.
    split; [exact Htr|]. subst r.
    exists todo. split; [reflexivity|].
    exact (answered_2xx where_id e
             (UpdateTodo (to_key n)
                         (set_prop "completed" (VBool (negb (truthy c)))
                                   (App.spread todo)))
             w Hs).
  - unfold App.deleteTodo. destruct confirmed; simpl; [|congruence].
    destruct (App.api tr (delete_todo where_id e (to_key n)) w)
      as [[r|] w'] eqn:Ha; [|simpl; congruence].
    intros _.
    destruct (api_fulfilled tr (delete_todo where_id e (to_key n)) w r)
      as (Htr & Hr & Hs).
    { rewrite Ha. reflexivity. }
    repeat split; [exact Htr|]. subst r.
    exact (answered_2xx where_id e (DeleteTodo (to_key n)) w Hs).
Qed.

End ClientProperties.

(** On an array of objects [map] does not throw: it sets [completed] in
    the objects whose [id] is the number and keeps the others. *)
Lemma map_completed_objects n c items :
  Forall (fun x => exists props, x = VObj props) items ->
  App.map_completed n c items =
    Some (map (fun x => match x with
                        | VObj props =>
                            if strict_eq (get_prop "id" props) (VNum n)
                            then VObj (set_prop "completed" c props)
                            else x
                        | _ => x
                        end) items).
Proof.
  induction 1 as [|x items [props ->] _ IH]; simpl; [reflexivity|].
  rewrite IH. reflexivity.
Qed.

Lemma filter_out_objects n items :
  Forall (fun x => exists props, x = VObj props) items ->
  exists ys, App.filter_out n items = Some ys.
Proof.
  induction 1 as [|x items [props ->] _ [ys IH]]; simpl; [eauto|].
  rewrite IH. eauto.
Qed.

Section ClientOverServer.

Variable where_id : jsstring -> Z -> bool.

(** The body [toggleTodo] sends carries the title and the description of
    the client's copy and the flipped flag. *)
Lemma toggle_body props c :
  get_prop "title" (set_prop "completed" c props) = get_prop "title" props
  /\ get_prop "description" (set_prop "completed" c props) =
       get_prop "description" props
  /\ get_prop "completed" (set_prop "completed" c props) = c.
Proof.
  repeat split.
  - apply get_prop_set_prop_other. discriminate.
  - apply get_prop_set_prop_other. discriminate.
  - apply get_prop_set_prop.
Qed.

Lemma toggle_body_fields props c :
  has_all_fields (set_prop "completed" (VBool c) props) =
    bindable (get_prop "title" props)
    && bindable (get_prop "description" props).
Proof.
  unfold has_all_fields.
  destruct (toggle_body props (VBool c)) as (-> & -> & ->).
  apply andb_true_r.
Qed.

(** X14. Toggling is a full replacement from the client's copy.  When
    the copy holds a title and a description and the update goes through,
    every row the identifier matches takes the title and the description
    the client holds for it (whatever the store held) and the negation of
    the flag the client passed; in the client's list the objects with
    that [id] take the same flag and nothing else changes.  When the copy
    lacks one of the two the driver refuses the statement: the toggle
    fails and neither the table nor the client's list changes. *)
Theorem toggle_writes_back_the_client_copy e n c st w items props r :
  App.todos st = VArr items ->
  Forall (fun x => exists p, x = VObj p) items ->
  App.find_id n items = Some (Some (VObj props)) ->
  db_fails e = false ->
  In r (todos w) -> where_id (to_key n) (id r) = true ->
  (redisClient w = true -> del_fails e = false) ->
  (bindable (get_prop "title" props)
   && bindable (get_prop "description" props) = true ->
   todos (snd (App.toggleTodo where_id App.Delivered e n c st w)) =
     update_rows where_id (get_prop "title" props) (get_prop "description" props)
                 (VBool (negb (truthy c))) (to_key n) (db_now w) (todos w)
   /\ fst (App.toggleTodo where_id App.Delivered e n c st w) =
        App.notify (if truthy c then App.MarkedUndone else App.MarkedDone)
          (App.setTodos
             (VArr (map (fun x =>
                           match x with
                           | VObj p =>
                               if strict_eq (get_prop "id" p) (VNum n)
                               then VObj (set_prop "completed"
                                                   (VBool (negb (truthy c))) p)
                               else x
                           | _ => x
                           end) items))
             st))
  /\ (bindable (get_prop "title" props)
      && bindable (get_prop "description" props) = false ->
      App.toggleTodo where_id App.Delivered e n c st w =
        (App.notify App.ToggleFailed st, w)).
Proof.
  intros Hitems Hobj Hfind Hdb Hin Hm Hdel.
  unfold App.toggleTodo. rewrite Hitems.
  cbn [App.elements option_map]. rewrite Hfind. cbn [App.spread]. cbv zeta.
  rewrite api_delivered.
  split; intros Hb.
  - rewrite put_todo_cases
      by (rewrite toggle_body_fields; exact Hb).
    rewrite Hdb.
    destruct (toggle_body props (VBool (negb (truthy c)))) as (-> & -> & ->).
    cbv zeta. rewrite (matching_some where_id (to_key n) (todos w) r Hin Hm).
    rewrite (map_completed_objects n _ items Hobj).
    destruct (redisClient w); [rewrite Hdel by reflexivity|]; simpl;
      split; reflexivity.
  - rewrite put_todo_unbound
      by (rewrite toggle_body_fields; exact Hb).
    reflexivity.
Qed.

(** X15. The store can be ahead of the client: when the answer to a
    toggle is lost, or when the row was updated but the invalidation of
    the cache key failed (answer 500), the client keeps its list as it was
    and reports a failure, although the row now holds the flipped flag
    whenever the client's copy held a title and a description to send;
    a copy that lacks one of them leaves the store as it was. *)
Theorem toggle_can_leave_the_client_behind tr e n c st w items props r :
  App.todos st = VArr items ->
  App.find_id n items = Some (Some (VObj props)) ->
  db_fails e = false ->
  In r (todos w) -> where_id (to_key n) (id r) = true ->
  (tr = App.LostResponse
   \/ (tr = App.Delivered /\ redisClient w = true /\ del_fails e = true)) ->
  fst (App.toggleTodo where_id tr e n c st w) = App.notify App.ToggleFailed st
  /\ (bindable (get_prop "title" props)
      && bindable (get_prop "description" props) = true ->
      In (mkTodo (id r) (get_prop "title" props) (get_prop "description" props)
                 (VBool (negb (truthy c))) (created_at r) (db_now w))
         (todos (snd (App.toggleTodo where_id tr e n c st w))))
  /\ (bindable (get_prop "title" props)
      && bindable (get_prop "description" props) = false ->
      snd (App.toggleTodo where_id tr e n c st w) = w).
Proof.
  intros Hitems Hfind Hdb Hin Hm Hcase.
  assert (Hrow : In (mkTodo (id r) (get_prop "title" props)
                            (get_prop "description" props)
                            (VBool (negb (truthy c))) (created_at r) (db_now w))
                    (update_rows where_id (get_prop "title" props)
                                 (get_prop "description" props)
                                 (VBool (negb (truthy c))) (to_key n)
                                 (db_now w) (todos w))).
  { unfold update_rows. apply in_map_iff. exists r. rewrite Hm. auto. }
  unfold App.toggleTodo. rewrite Hitems.
  cbn [App.elements option_map]. rewrite Hfind. cbn [App.spread]. cbv zeta.
  destruct (bindable (get_prop "title" props)
            && bindable (get_prop "description" props)) eqn:Hb.
  - assert (Hput := put_todo_cases where_id e (to_key n)
                      (set_prop "completed" (VBool (negb (truthy c))) props) w
                      (eq_trans (toggle_body_fields props _) Hb)).
    rewrite Hdb in Hput.
    destruct (toggle_body props (VBool (negb (truthy c)))) as (Ht & Hd & Hc).
    rewrite Ht, Hd, Hc in Hput. cbv zeta in Hput.
    rewrite (matching_some where_id (to_key n) (todos w) r Hin Hm) in Hput.
    destruct Hcase as [-> | (-> & Hcl & Hdl)].
    + unfold App.api. rewrite Hput.
      destruct (redisClient w); [destruct (del_fails e)|]; simpl;
        (split; [reflexivity | split; [intros _; exact Hrow | discriminate]]).
    + rewrite api_delivered, Hput, Hcl, Hdl. simpl.
      split; [reflexivity | split; [intros _; exact Hrow | discriminate]].
  - assert (Hput := put_todo_unbound where_id e (to_key n)
                      (set_prop "completed" (VBool (negb (truthy c))) props) w
                      (eq_trans (toggle_body_fields props _) Hb)).
    destruct Hcase as [-> | (-> & Hcl & Hdl)].
    + unfold App.api. rewrite Hput. simpl.
      split; [reflexivity | split; [discriminate | reflexivity]].
    + rewrite api_delivered, Hput. simpl.
      split; [reflexivity | split; [discriminate | reflexivity]].
Qed.

(** X16. Deleting asks first: unconfirmed, nothing is sent and nothing
    changes.  Confirmed and gone through, no row matching the identifier
    is left in the table and no object with that [id] is left in the
    client's list, whose other elements stay in order. *)
Theorem confirmed_delete_removes_everywhere tr e n st w items r :
  App.deleteTodo where_id false tr e n st w = (st, w)
  /\ (App.todos st = VArr items ->
      Forall (fun x => exists p, x = VObj p) items ->
      db_fails e = false ->
      In r (todos w) -> where_id (to_key n) (id r) = true ->
      (redisClient w = true -> del_fails e = false) ->
      exists items',
        fst (App.deleteTodo where_id true App.Delivered e n st w) =
          App.notify App.Deleted (App.setTodos (VArr items') st)
        /\ items' = filter (fun x => match App.has_id n x with
                                     | Some true => false
                                     | _ => true
                                     end) items
        /\ Forall (fun x => App.has_id n x = Some false) items'
        /\ (forall r', In r' (todos (snd (App.deleteTodo where_id true
                                            App.Delivered e n st w))) ->
                       where_id (to_key n) (id r') = false)).
Proof.
  split; [reflexivity|].
  intros Hitems Hobj Hdb Hin Hm Hdel.
  destruct (filter_out_objects n items Hobj) as [ys Hys].
  destruct (filter_out_spec n items ys Hys) as [Hspec Hall].
  exists ys.
  unfold App.deleteTodo. cbn [negb].
  rewrite api_delivered, delete_todo_cases, Hdb. cbv zeta.
  rewrite (matching_some where_id (to_key n) (todos w) r Hin Hm).
  rewrite Hitems. cbn [App.elements option_map]. rewrite Hys.
  assert (Hgone : forall r', In r' (delete_rows where_id (to_key n) (todos w)) ->
                             where_id (to_key n) (id r') = false).
  { intros r' Hr'. apply filter_In in Hr' as [_ Hr'].
    apply negb_true_iff in Hr'. exact Hr'. }
  destruct (redisClient w); [rewrite Hdel by reflexivity|]; simpl;
    repeat split; auto.
Qed.

End ClientOverServer.

(** X17. A fetch always ends with [loading] false.  From a world whose
    cache entry, if any, is the current list, a fetch that gets through
    with nothing failing leaves the client with exactly the rows of the
    table, newest first; a fetch whose request or answer is lost, or that
    is answered 500, keeps the client's list and reports the failure. *)
Theorem fetch_shows_the_store tr e st w :
  App.loading (fst (App.fetchTodos tr e st w)) = false
  /\ (coherent w -> tr = App.Delivered ->
      db_fails e = false -> get_fails e = false -> setEx_fails e = false ->
      App.todos (fst (App.fetchTodos tr e st w)) =
        rows_json (order_by_created_at_desc (todos w))
      /\ App.toasts (fst (App.fetchTodos tr e st w)) = App.toasts st)
  /\ (tr <> App.Delivered \/ status (fst (get_todos e w)) = 500 ->
      App.todos (fst (App.fetchTodos tr e st w)) = App.todos st
      /\ App.toasts (fst (App.fetchTodos tr e st w)) =
           App.FetchFailed :: App.toasts st).
Proof.
  unfold App.fetchTodos. split; [|split].
  - destruct (App.api tr (get_todos e) w) as [[r|] w']; reflexivity.
  - intros Hco -> Hdb Hget Hset.
    rewrite api_delivered, get_todos_cases, Hdb, Hget, Hset.
    destruct (redisClient w) eqn:Hc; [|simpl; auto].
    destruct (cache w) as [[doc ttl]|] eqn:Hv; simpl; [|auto].
    rewrite (Hco Hc doc ttl Hv). auto.
  - intros [Htr | H500].
    + destruct tr; [contradiction| |]; simpl; auto.
    + destruct tr; [rewrite api_delivered, H500 | |]; simpl; auto.
Qed.

(** X18. An item just added is shown with a modification date: the object
    of the 201 has no [updated_at], so it differs from its [created_at];
    the same row as the server lists it has the two equal and is shown
    without one. *)
Theorem added_item_shows_a_modification_date e req_body w :
  status (fst (post_todos e req_body w)) = 201 ->
  exists props row props',
    body (fst (post_todos e req_body w)) = VObj props
    /\ App.shows_modified props = true
    /\ todos (snd (post_todos e req_body w)) = todos w ++ [row]
    /\ row_json row = VObj props'
    /\ get_prop "id" props' = get_prop "id" props
    /\ App.shows_modified props' = false.
Proof.
  intros H.
  destruct (post_todos_201_inv e req_body w H)
    as (t & d & Ht & Hne & Hd & Hdb & Hdel).
  rewrite (post_todos_strings e req_body w t d Ht Hne Hd), Hdb. simpl.
  eexists _, (insert_row (trim t) (trim d) w), _.
  destruct (redisClient w); [rewrite Hdel by reflexivity|]; simpl;
    (repeat split; try reflexivity;
     unfold App.shows_modified; simpl; rewrite Z.eqb_refl; reflexivity).
Qed.

(** ** The properties of the client at work *)

Lemma blank_title_sends_nothing_witness :
  let st := App.setNewTodo (lit "  ", lit "x") App.initial in
  let w := boot true 1700000000 1700000000123 in
  App.addTodo App.Delivered all_well st w =
    (App.notify App.TitleRequired st, w).
Proof.
  cbv zeta.
  exact (blank_title_sends_nothing App.Delivered all_well
           (App.setNewTodo (lit "  ", lit "x") App.initial)
           (boot true 1700000000 1700000000123) eq_refl).
Defined.

Lemma form_submission_creates_witness :
  let st := App.setNewTodo (lit " Buy milk ", lit "2%") App.initial in
  let w := boot true 1700000000 1700000000123 in
  App.todos (fst (App.addTodo App.Delivered all_well st w)) =
    VArr [created_json 1 (lit "Buy milk") (lit "2%") 1700000000123]
  /\ App.newTodo (fst (App.addTodo App.Delivered all_well st w)) = ([], []).
Proof.
  cbv zeta.
  destruct (form_submission_creates App.Delivered all_well
              (App.setNewTodo (lit " Buy milk ", lit "2%") App.initial)
              (boot true 1700000000 1700000000123)
              (lit " Buy milk ") (lit "2%") [] eq_refl) as [_ H].
  - vm_compute. discriminate.
  - destruct (H eq_refl eq_refl (fun _ => eq_refl) eq_refl) as [H1 _].
    rewrite H1. split; reflexivity.
Defined.

Lemma list_changes_only_on_success_witness :
  let w := snd (post_todos all_well [("title"%string, VStr (lit "a"))]
                           (boot true 1700000000 1700000000123)) in
  let st := App.setTodos (VArr [created_json 1 (lit "a") [] 1700000000123])
                         App.initial in
  status (fst (delete_todo decimal_id all_well (to_key 1) w)) = 200.
Proof.
  cbv zeta.
  refine (proj2 (proj2 (proj2 (proj2
            (list_changes_only_on_success decimal_id App.Delivered all_well
               1 VNull true
               (App.setTodos
                  (VArr [created_json 1 (lit "a") [] 1700000000123])
                  App.initial)
               (snd (post_todos all_well [("title"%string, VStr (lit "a"))]
                                (boot true 1700000000 1700000000123)))))
            _))).
  vm_compute. discriminate.
Defined.

Lemma toggle_writes_back_the_client_copy_witness :
  let w := snd (post_todos all_well [("title"%string, VStr (lit "a"))]
                           (boot true 1700000000 1700000000123)) in
  let st := App.setTodos (VArr [created_json 1 (lit "stale") [] 1700000000123])
                         App.initial in
  todos (snd (App.toggleTodo decimal_id App.Delivered all_well 1 (VBool false)
                             st (elapse 9 w))) =
    [mkTodo 1 (VStr (lit "stale")) (VStr []) (VBool true)
            1700000000 1700000009].
Proof.
  cbv zeta.
  rewrite (proj1 (proj1 (toggle_writes_back_the_client_copy decimal_id all_well 1
                    (VBool false)
                    (App.setTodos
                       (VArr [created_json 1 (lit "stale") [] 1700000000123])
                       App.initial)
                    (elapse 9
                       (snd (post_todos all_well
                               [("title"%string, VStr (lit "a"))]
                               (boot true 1700000000 1700000000123))))
                    [created_json 1 (lit "stale") [] 1700000000123]
                    _
                    (mkTodo 1 (VStr (lit "a")) (VStr []) (VBool false)
                            1700000000 1700000000)
                    eq_refl
                    (Forall_cons _ (ex_intro _ _ eq_refl) (Forall_nil _))
                    eq_refl eq_refl (or_introl eq_refl) eq_refl
                    (fun _ => eq_refl)) eq_refl)).
  reflexivity.
Defined.

Lemma toggle_can_leave_the_client_behind_witness :
  let w := snd (post_todos all_well [("title"%string, VStr (lit "a"))]
                           (boot true 1700000000 1700000000123)) in
  let st := App.setTodos (VArr [created_json 1 (lit "a") [] 1700000000123])
                         App.initial in
  App.todos (fst (App.toggleTodo decimal_id App.LostResponse all_well 1
                                 (VBool false) st w)) = App.todos st
  /\ In (mkTodo 1 (VStr (lit "a")) (VStr []) (VBool true)
                1700000000 1700000000)
        (todos (snd (App.toggleTodo decimal_id App.LostResponse all_well 1
                                    (VBool false) st w))).
Proof.
  cbv zeta.
  destruct (toggle_can_leave_the_client_behind decimal_id App.LostResponse
              all_well 1 (VBool false)
              (App.setTodos
                 (VArr [created_json 1 (lit "a") [] 1700000000123])
                 App.initial)
              (snd (post_todos all_well [("title"%string, VStr (lit "a"))]
                               (boot true 1700000000 1700000000123)))
              [created_json 1 (lit "a") [] 1700000000123]
              _
              (mkTodo 1 (VStr (lit "a")) (VStr []) (VBool false)
                      1700000000 1700000000)
              eq_refl eq_refl eq_refl (or_introl eq_refl) eq_refl
              (or_introl eq_refl)) as (H1 & H2 & _).
  split; [rewrite H1; reflexivity | exact (H2 eq_refl)].
Defined.

Lemma confirmed_delete_removes_everywhere_witness :
  let w := snd (post_todos all_well [("title"%string, VStr (lit "a"))]
                           (boot true 1700000000 1700000000123)) in
  let st := App.setTodos (VArr [created_json 1 (lit "a") [] 1700000000123])
                         App.initial in
  App.todos (fst (App.deleteTodo decimal_id true App.Delivered all_well 1
                                 st w)) = VArr []
  /\ todos (snd (App.deleteTodo decimal_id true App.Delivered all_well 1
                                st w)) = [].
Proof.
  cbv zeta.
  destruct (proj2 (confirmed_delete_removes_everywhere decimal_id
                     App.Delivered all_well 1
                     (App.setTodos
                        (VArr [created_json 1 (lit "a") [] 1700000000123])
                        App.initial)
                     (snd (post_todos all_well
                             [("title"%string, VStr (lit "a"))]
                             (boot true 1700000000 1700000000123)))
                     [created_json 1 (lit "a") [] 1700000000123]
                     (mkTodo 1 (VStr (lit "a")) (VStr []) (VBool false)
                             1700000000 1700000000))
                  eq_refl
                  (Forall_cons _ (ex_intro _ _ eq_refl) (Forall_nil _))
                  eq_refl (or_introl eq_refl) eq_refl (fun _ => eq_refl))
    as (items' & H1 & H2 & _).
  rewrite H1, H2. split; reflexivity.
Defined.

Lemma fetch_shows_the_store_witness :
  let w := snd (post_todos all_well [("title"%string, VStr (lit "a"))]
                           (boot true 1700000000 1700000000123)) in
  App.todos (fst (App.fetchTodos App.Delivered all_well App.initial w)) =
    VArr [row_json (mkTodo 1 (VStr (lit "a")) (VStr []) (VBool false)
                           1700000000 1700000000)].
Proof.
  cbv zeta.
  destruct (fetch_shows_the_store App.Delivered all_well App.initial
              (snd (post_todos all_well [("title"%string, VStr (lit "a"))]
                               (boot true 1700000000 1700000000123))))
    as (_ & H & _).
  assert (Hco : coherent
                  (snd (post_todos all_well [("title"%string, VStr (lit "a"))]
                                   (boot true 1700000000 1700000000123))))
    by (intros _ doc ttl; discriminate).
  destruct (H Hco eq_refl eq_refl eq_refl eq_refl) as [H1 _].
  rewrite H1. reflexivity.
Defined.

Lemma added_item_shows_a_modification_date_witness :
  exists props,
    body (fst (post_todos all_well [("title"%string, VStr (lit "a"))]
                          (boot true 1700000000 1700000000123))) = VObj props
    /\ App.shows_modified props = true.
Proof.
  destruct (added_item_shows_a_modification_date all_well
              [("title"%string, VStr (lit "a"))]
              (boot true 1700000000 1700000000123) eq_refl)
    as (props & _ & _ & H1 & H2 & _).
  exists props. auto.
Defined.
